(** * go-connection-hub: the connection hub, its connections and messages

    A shallow embedding of package hub: the Message envelope with its
    builder and validator, the SSEConnection and WebSocketConnection
    implementations of Connection, and the Hub; then the properties of
    its specification.

    Go strings are byte strings: [string] with one [ascii] per byte.
    A call that returns a Go [error] yields a [result]: [Nil], [Error msg],
    or [Panic msg] when the call panics instead of returning.  Methods on
    a pointer receiver take the object and return it updated. *)

From Stdlib Require Import Ascii String NArith ZArith List Bool Lia.
From stdpp Require Import base option gmap strings list fin_maps pretty.

Open Scope string_scope.
Open Scope list_scope.
Open Scope nat_scope.
#[local] Arguments String.append !_ _ / : simpl nomatch.
Set Warnings "-register-all".

(** ** Bytes and runes *)

Module Utf8.

Definition byte_in (lo hi : N) (b : ascii) : bool :=
  (lo <=? N_of_ascii b)%N && (N_of_ascii b <=? hi)%N.

(** A continuation byte, 0x80..0xBF. *)
Definition isCont (b : ascii) : bool := byte_in 128 191 b.

(** ASCII bytes (below utf8.RuneSelf) are their own rune. *)
Definition isASCII (b : ascii) : bool := (N_of_ascii b <? 128)%N.

(** The values the second byte may take, which depend on the lead byte:
    they exclude the encodings longer than needed, the surrogates and
    the runes above U+10FFFF, as the checks of the runtime's decoderune
    do. *)
Definition second_ok (b0 b1 : ascii) : bool :=
  if (N_of_ascii b0 =? 224)%N then byte_in 160 191 b1
  else if (N_of_ascii b0 =? 237)%N then byte_in 128 159 b1
  else if (N_of_ascii b0 =? 240)%N then byte_in 144 191 b1
  else if (N_of_ascii b0 =? 244)%N then byte_in 128 143 b1
  else isCont b1.

(** Length of the encoding announced by a lead byte; 0 for a byte that
    cannot start an encoding (0x80..0xC1 and 0xF5..0xFF). *)
Definition runeLen (b0 : ascii) : nat :=
  if isASCII b0 then 1
  else if byte_in 194 223 b0 then 2
  else if byte_in 224 239 b0 then 3
  else if byte_in 240 244 b0 then 4
  else 0.

(** A rune is carried as what [string(char)] yields for it, its UTF-8
    encoding; the decoder accepts shortest encodings only, so a decoded
    rune re-encodes to the bytes it was read from, and any byte that does
    not start a well-formed encoding decodes to U+FFFD. *)
Definition rune := string.

Definition RuneError : rune :=
  String (ascii_of_N 239) (String (ascii_of_N 191) (String (ascii_of_N 189) "")).

(** [for _, char := range s]: the runes of [s] in order.  An ill-formed
    or truncated encoding yields [RuneError] and advances one byte. *)
Fixpoint runes (s : string) : list rune :=
  match s with
  | EmptyString => []
  | String b0 s1 =>
    match runeLen b0 with
    | 1 => String b0 "" :: runes s1
    | 2 =>
      match s1 with
      | String b1 s2 =>
        if second_ok b0 b1
        then String b0 (String b1 "") :: runes s2
        else RuneError :: runes s1
      | _ => RuneError :: runes s1
      end
    | 3 =>
      match s1 with
      | String b1 (String b2 s3) =>
        if second_ok b0 b1 && isCont b2
        then String b0 (String b1 (String b2 "")) :: runes s3
        else RuneError :: runes s1
      | _ => RuneError :: runes s1
      end
    | 4 =>
      match s1 with
      | String b1 (String b2 (String b3 s4)) =>
        if second_ok b0 b1 && isCont b2 && isCont b3
        then String b0 (String b1 (String b2 (String b3 ""))) :: runes s4
        else RuneError :: runes s1
      | _ => RuneError :: runes s1
      end
    | _ => RuneError :: runes s1
    end
  end.

(** One step of the range loop, as the runtime's decoderune takes it on
    the bytes [b0 :: s1]: the rune, and how many bytes of [s1] belong to
    it. *)
Definition decode (b0 : ascii) (s1 : string) : rune * nat :=
  match runeLen b0 with
  | 1 => (String b0 "", 0)
  | 2 =>
    match s1 with
    | String b1 _ =>
      if second_ok b0 b1 then (String b0 (String b1 ""), 1) else (RuneError, 0)
    | _ => (RuneError, 0)
    end
  | 3 =>
    match s1 with
    | String b1 (String b2 _) =>
      if second_ok b0 b1 && isCont b2
      then (String b0 (String b1 (String b2 "")), 2)
      else (RuneError, 0)
    | _ => (RuneError, 0)
    end
  | 4 =>
    match s1 with
    | String b1 (String b2 (String b3 _)) =>
      if second_ok b0 b1 && isCont b2 && isCont b3
      then (String b0 (String b1 (String b2 (String b3 ""))), 3)
      else (RuneError, 0)
    | _ => (RuneError, 0)
    end
  | _ => (RuneError, 0)
  end.

(** [s[k:]] *)
Fixpoint skip (k : nat) (s : string) : string :=
  match k, s with
  | S k', String _ s' => skip k' s'
  | _, _ => s
  end.

(** What ranging over [s] and appending every [string(char)] builds: [s]
    itself when [s] is well-formed UTF-8, and otherwise [s] with U+FFFD
    for each byte that starts no encoding. *)
Definition reencode (s : string) : string :=
  fold_right String.append "" (runes s).


End Utf8.

(** The two bytes the splitter looks for. *)
Definition LF : ascii := ascii_of_N 10.
Definition CR : ascii := ascii_of_N 13.
Definition nl : string := String LF "".
Definition cr : string := String CR "".

Definition isTerminator (b : ascii) : bool :=
  Ascii.eqb b LF || Ascii.eqb b CR.

(** The number of line terminator bytes in a string. *)
Fixpoint terminators (s : string) : nat :=
  match s with
  | EmptyString => 0
  | String b s' => (if isTerminator b then 1 else 0) + terminators s'
  end.

(** Is the last byte of the string a line terminator? *)
Fixpoint endsInTerminator (s : string) : bool :=
  match s with
  | EmptyString => false
  | String b EmptyString => isTerminator b
  | String _ s' => endsInTerminator s'
  end.

(** The bytes of a string are all different from CR. *)
Fixpoint noCR (s : string) : bool :=
  match s with
  | EmptyString => true
  | String b s' => negb (Ascii.eqb b CR) && noCR s'
  end.

(** [strings.Join(lines, sep)] *)
Fixpoint join (sep : string) (lines : list string) : string :=
  match lines with
  | [] => ""
  | [l] => l
  | l :: ls => l +:+ sep +:+ join sep ls
  end.

(** ** Errors *)

(** What a call declared to return [error] does: it returns [nil], it
    returns an error, or it panics (a nil dereference, a send on a closed
    channel) and returns nothing. *)
Inductive result : Type :=
| Nil
| Error (msg : string)
| Panic (msg : string).

Definition isError (r : result) : bool :=
  match r with Error _ => true | _ => false end.

(** A call returning (value, error). *)
Inductive returned (A : Type) : Type :=
| Val (a : A)
| Fail (msg : string).
Arguments Val {A} a.
Arguments Fail {A} msg.

(** ** SSEConnection: splitLines *)

(** One iteration of the loop body of [splitLines], on the pair
    (lines, current). *)
Definition splitStep (st : list string * string) (char : Utf8.rune)
  : list string * string :=
  let '(lines, current) := st in
  if String.eqb char nl || String.eqb char cr
  then (lines ++ [current], "")
  else (lines, current +:+ char).

(** The loop of [splitLines] started from (lines, current). *)
Definition splitLoop (s : string) (st : list string * string)
  : list string * string :=
  fold_left splitStep (Utf8.runes s) st.

Definition splitLines (s : string) : list string :=
  if String.eqb s "" then [""]
  else
    let '(lines, current) := splitLoop s ([], "") in
    if negb (String.eqb current "") || (length lines =? 0)%nat
    then lines ++ [current]
    else lines.

(** ** Message *)

(** The dynamic values a [Data interface{}] holds in this program: nil,
    strings, byte slices, booleans, integers, slices, string-keyed maps
    (an association list of distinct keys), and values of a type
    encoding/json has no encoding for (channels, functions, complex
    numbers), tagged with the name of that type. *)
Inductive value : Type :=
| VNil
| VString (s : string)
| VBytes (b : string)
| VBool (b : bool)
| VInt (n : Z)
| VList (l : list value)
| VMap (m : list (string * value))
| VUnsupported (ty : string).

Record Message : Type := mkMessage {
  ID : string;
  Type_ : string;
  Data : value;
  Headers : option (gmap string string)   (* None is the nil map *)
}.

(** ** encoding/json *)

(** The first value json.Marshal has no encoding for, if any. *)
Fixpoint json_unsupported (v : value) : option string :=
  match v with
  | VUnsupported ty => Some ty
  | VList l =>
      (fix first (l : list value) : option string :=
         match l with
         | [] => None
         | x :: l' =>
             match json_unsupported x with
             | Some ty => Some ty
             | None => first l'
             end
         end) l
  | VMap m =>
      (fix first (m : list (string * value)) : option string :=
         match m with
         | [] => None
         | (_, x) :: m' =>
             match json_unsupported x with
             | Some ty => Some ty
             | None => first m'
             end
         end) m
  | _ => None
  end.

Section Runtime.

(** The text json.Marshal produces for a value it can encode. *)
Variable json_encode : value -> string.

(** The system clock: [clock k] is the k-th reading of time.Now(), in
    nanoseconds since the Unix epoch. *)
Variable clock : nat -> N.

(** [Format utc layout t]: time.Time.Format, in UTC or in local time. *)
Variable Format : bool -> string -> N -> string.

Definition json_Marshal (v : value) : returned string :=
  match json_unsupported v with
  | Some ty => Fail ("json: unsupported type: " +:+ ty)
  | None => Val (json_encode v)
  end.

(** ** message.go: builder, factories and validator *)

Definition MessageTypeNotification : string := "notification".
Definition MessageTypeAlert : string := "alert".
Definition PriorityNormal : string := "normal".
Definition PriorityHigh : string := "high".

Record MessageBuilder : Type := { message : Message }.

Definition NewMessageBuilder : MessageBuilder :=
  {| message := mkMessage "" "" VNil (Some ∅) |}.

Definition WithID (id : string) (mb : MessageBuilder) : MessageBuilder :=
  let m := message mb in
  {| message := mkMessage id (Type_ m) (Data m) (Headers m) |}.

Definition WithType (msgType : string) (mb : MessageBuilder) : MessageBuilder :=
  let m := message mb in
  {| message := mkMessage (ID m) msgType (Data m) (Headers m) |}.

Definition WithData (data : value) (mb : MessageBuilder) : MessageBuilder :=
  let m := message mb in
  {| message := mkMessage (ID m) (Type_ m) data (Headers m) |}.

Definition WithHeader (key val : string) (mb : MessageBuilder) : MessageBuilder :=
  let m := message mb in
  let h := match Headers m with None => ∅ | Some h => h end in
  {| message := mkMessage (ID m) (Type_ m) (Data m) (Some (<[key := val]> h)) |}.

Definition WithPriority (priority : string) (mb : MessageBuilder) : MessageBuilder :=
  WithHeader "priority" priority mb.

(** The reading [clock t] is the one WithTimestamp takes. *)
Definition WithTimestamp (t : nat) (mb : MessageBuilder) : MessageBuilder :=
  WithHeader "timestamp" (Format true "2006-01-02T15:04:05Z07:00" (clock t)) mb.

Definition charset : string :=
  "abcdefghijklmnopqrstuvwxyzABCDEFGHIJKLMNOPQRSTUVWXYZ0123456789".

(** [randomString length], its i-th byte drawn from the reading
    [clock (t + i)]. *)
Fixpoint randomString (length : nat) (t : nat) : string :=
  match length with
  | O => ""
  | S n =>
      let i := N.to_nat (clock t mod N.of_nat (String.length charset)) in
      match String.get i charset with
      | Some b => String b (randomString n (S t))
      | None => randomString n (S t)
      end
  end.

Definition generateMessageID (t : nat) : string :=
  Format false "20060102150405" (clock t) +:+ "-" +:+ randomString 8 (S t).

(** Does the map hold the key?  A nil map holds none. *)
Definition hasHeader (key : string) (h : option (gmap string string)) : bool :=
  match h with
  | Some h => bool_decide (is_Some (h !! key))
  | None => false
  end.

(** [Build], started when the clock has been read [t] times. *)
Definition Build (t : nat) (mb : MessageBuilder) : Message :=
  let '(mb, t) :=
    if String.eqb (ID (message mb)) ""
    then (WithID (generateMessageID t) mb, (t + 9)%nat)
    else (mb, t) in
  let mb :=
    if hasHeader "timestamp" (Headers (message mb))
    then mb
    else WithTimestamp t mb in
  message mb.

Definition NotificationMessage (t : nat) (title body : string) : Message :=
  Build t
    (WithPriority PriorityNormal
       (WithData (VMap [("title", VString title); ("body", VString body)])
          (WithType MessageTypeNotification NewMessageBuilder))).

Definition AlertMessage (t : nat) (level msg : string) : Message :=
  Build t
    (WithPriority PriorityHigh
       (WithData (VMap [("level", VString level); ("message", VString msg)])
          (WithType MessageTypeAlert NewMessageBuilder))).

(** [MessageValidator.Validate]; [None] is the nil *Message. *)
Definition Validate (message : option Message) : result :=
  match message with
  | None => Error "message cannot be nil"
  | Some m =>
      if String.eqb (ID m) "" then Error "message ID cannot be empty"
      else if String.eqb (Type_ m) "" then Error "message type cannot be empty"
      else
        match Data m with
        | VNil => Nil
        | d =>
            match json_Marshal d with
            | Fail err =>
                Error ("message data must be JSON serializable: " +:+ err)
            | Val _ => Nil
            end
        end
  end.

(** ** SSEConnection: formatSSEMessage *)

(** One [data:] field. *)
Definition dataLine (line : string) : string := "data: " +:+ line +:+ nl.

(** [result = append(result, fmt.Sprintf("data: %s\n", line)...)] for
    each line in turn. *)
Definition appendDataLines (result : string) (lines : list string) : string :=
  fold_left (fun result line => result +:+ "data: " +:+ line +:+ nl) lines result.

Definition formatSSEMessage (message : Message) : returned string :=
  let result := "" in
  let result :=
    if negb (String.eqb (ID message) "")
    then result +:+ "id: " +:+ ID message +:+ nl else result in
  let result :=
    if negb (String.eqb (Type_ message) "")
    then result +:+ "event: " +:+ Type_ message +:+ nl else result in
  let data :=
    match Data message with
    | VString v => Val v
    | VBytes v => Val v
    | v =>
        match json_Marshal v with
        | Fail err => Fail ("failed to marshal data: " +:+ err)
        | Val jsonData => Val jsonData
        end
    end in
  match data with
  | Fail err => Fail err
  | Val data =>
      let lines := splitLines data in
      let result := appendDataLines result lines in
      Val (result +:+ nl)
  end.

End Runtime.

(** ** logger: the capability the hub and its connections write to *)

Inductive Level : Type :=
| LevelDebug | LevelInfo | LevelWarn | LevelError | LevelFatal.

(** A logger is the sequence of lines written to it, oldest first. *)
Definition Logger : Type := list (Level * string).

Definition logf (lvl : Level) (msg : string) (l : Logger) : Logger :=
  l ++ [(lvl, msg)].

(** ** context and select *)

(** A caller's context.Context: [None] while it is live, [Some e] once it
    is done, [e] being the text of ctx.Err(). *)
Definition Ctx : Type := option string.

(** The case a [select] commits to: the channel communication, the
    caller's ctx.Done(), the receiver's own context (c.ctx.Done(),
    h.ctx.Done()), or the time.After timer.  An operation is given the
    case as an argument and answers [None] when that case cannot be taken in
    the state it runs in: a communication on a full channel, the Done of a
    live context, the timer while another case is ready. *)
Inductive Pick : Type :=
| PickComm | PickCaller | PickOwn | PickTimer.

(** ** SSEConnection *)

(** The http.ResponseWriter handed to the connection. *)
Record ResponseWriter : Type := mkWriter {
  header : gmap string string;
  body : string;               (* the bytes written so far *)
  flushes : nat;               (* calls of Flush *)
  isFlusher : bool;            (* the writer implements http.Flusher *)
  writeErr : option string     (* what Write fails with, if it fails *)
}.

Record SSEConnection : Type := mkSSE {
  sse_id : string;
  writer : ResponseWriter;
  sse_ctxDone : bool;          (* c.ctx is cancelled *)
  sse_closed : bool;
  sse_logger : Logger;
  sse_lastActivity : N;
  inflight : list string       (* frames held by goroutines of Send that
                                  have not written yet *)
}.

Module SSE.

Definition ID (c : SSEConnection) : string := sse_id c.
Definition Type_ (c : SSEConnection) : string := "sse".
Definition IsClosed (c : SSEConnection) : bool := sse_closed c.
Definition Context (c : SSEConnection) : bool := sse_ctxDone c.

Definition withLog (lvl : Level) (msg : string) (c : SSEConnection) : SSEConnection :=
  mkSSE (sse_id c) (writer c) (sse_ctxDone c) (sse_closed c)
        (logf lvl msg (sse_logger c)) (sse_lastActivity c) (inflight c).

Definition updateActivity (now : N) (c : SSEConnection) : SSEConnection :=
  mkSSE (sse_id c) (writer c) (sse_ctxDone c) (sse_closed c)
        (sse_logger c) now (inflight c).

Definition Close (c : SSEConnection) : result * SSEConnection :=
  if sse_closed c then (Nil, c)
  else
    let c := mkSSE (sse_id c) (writer c) true true
                   (sse_logger c) (sse_lastActivity c) (inflight c) in
    (Nil, withLog LevelInfo "SSE connection closed" c).

(** The body of the goroutine Send starts: Write, then Flush. *)
Definition writeAndFlush (w : ResponseWriter) (sseMessage : string)
  : option string * ResponseWriter :=
  match writeErr w with
  | Some err => (Some err, w)
  | None =>
      (None,
       mkWriter (header w) (body w +:+ sseMessage)
                (if isFlusher w then S (flushes w) else flushes w)
                (isFlusher w) (writeErr w))
  end.

Definition withWriter (w : ResponseWriter) (c : SSEConnection) : SSEConnection :=
  mkSSE (sse_id c) w (sse_ctxDone c) (sse_closed c)
        (sse_logger c) (sse_lastActivity c) (inflight c).

Definition leaveInflight (sseMessage : string) (c : SSEConnection) : SSEConnection :=
  mkSSE (sse_id c) (writer c) (sse_ctxDone c) (sse_closed c)
        (sse_logger c) (sse_lastActivity c) (inflight c ++ [sseMessage]).


(** [Send]: [now] is the reading of the clock, [pick] the case the
    select commits to ([PickComm] is the receive from [done]), and
    [json_encode] the text json.Marshal produces.

    The write is done by a goroutine of its own.  When the select
    receives from [done] that goroutine has finished, and its write is
    part of the step.  When the select commits to ctx.Done() or to the
    timer, [Send] returns without waiting for it: the frame is left in
    flight, and the write is the step [writeGoroutine] of the connection
    [Send] returns.  That step may be taken at any time, and in the
    source the write may also have been done before the select committed;
    the cases of the select touch the logger, the flags and the context
    only and the goroutine touches the writer only, so that order gives
    the connection of [Send] followed by [writeGoroutine]. *)
Definition Send (json_encode : value -> string) (now : N) (pick : Pick)
    (ctx : Ctx) (message : option Message) (c : SSEConnection)
  : option (result * SSEConnection) :=
  if IsClosed c then Some (Error "client is closed", c)
  else
    let c := updateActivity now c in
    match message with
    | None => Some (Panic "invalid memory address or nil pointer dereference", c)
    | Some m =>
      match formatSSEMessage json_encode m with
      | Fail err => Some (Error ("failed to format SSE message: " +:+ err), c)
      | Val sseMessage =>
        match pick with
        | PickComm =>
            match writeAndFlush (writer c) sseMessage with
            | (Some err, w) =>
                let c := withWriter w c in
                let c := withLog LevelError ("Failed to write message: " +:+ err) c in
                Some (Error err, snd (Close c))
            | (None, w) => Some (Nil, withWriter w c)
            end
        | PickCaller =>
            match ctx with
            | Some err =>
                let c := leaveInflight sseMessage c in
                Some (Error err, withLog LevelWarn "Send operation cancelled" c)
            | None => None
            end
        | PickTimer =>
            match ctx with
            | Some _ => None
            | None =>
                let c := leaveInflight sseMessage c in
                let c := withLog LevelWarn "Send operation timed out" c in
                Some (Error "send timeout", snd (Close c))
            end
        | PickOwn => None
        end
      end
    end.

End SSE.

(** ** WebSocketConnection *)

(** A frame as WriteMessage takes it: message type and payload. *)
Inductive Frame : Type :=
| RawFrame (messageType : N) (data : string)
| JSONFrame (v : option Message).

Definition CloseMessage : N := 8.
Definition CloseNormalClosure : N := 1000.

(** websocket.FormatCloseMessage: the code, big-endian, then the text. *)
Definition FormatCloseMessage (closeCode : N) (text : string) : string :=
  String (ascii_of_N (closeCode / 256)) (String (ascii_of_N (closeCode mod 256)) text).

(** The *websocket.Conn under the connection. *)
Record Socket : Type := mkSocket {
  written : list Frame;
  sockClosed : bool;
  writeDeadline : option N;
  readDeadline : option N
}.

Definition SetWriteDeadline (t : N) (k : Socket) : Socket :=
  mkSocket (written k) (sockClosed k) (Some t) (readDeadline k).

(** WriteMessage fails on a closed socket and writes nothing. *)
Definition WriteMessage (messageType : N) (data : string) (k : Socket)
  : option string * Socket :=
  if sockClosed k then (Some "use of closed network connection", k)
  else (None, mkSocket (written k ++ [RawFrame messageType data]) (sockClosed k)
                       (writeDeadline k) (readDeadline k)).

Definition closeSocket (k : Socket) : Socket :=
  mkSocket (written k) true (writeDeadline k) (readDeadline k).

Record WebSocketConnection : Type := mkWS {
  ws_id : string;
  conn : Socket;
  ws_ctxDone : bool;
  ws_closed : bool;
  ws_logger : Logger;
  send : list (option Message);   (* the queued messages, oldest first *)
  sendClosed : bool;              (* close(c.send) has run *)
  ws_lastActivity : N;
  writeTimeout : N;
  pongTimeout : N
}.

Module WS.

(** Capacity of the send channel. *)
Definition sendCap : nat := 256.

Definition ID (c : WebSocketConnection) : string := ws_id c.
Definition Type_ (c : WebSocketConnection) : string := "websocket".
Definition IsClosed (c : WebSocketConnection) : bool := ws_closed c.
Definition Context (c : WebSocketConnection) : bool := ws_ctxDone c.

Definition Send (pick : Pick) (ctx : Ctx) (message : option Message)
    (c : WebSocketConnection) : option (result * WebSocketConnection) :=
  if IsClosed c then Some (Error "WebSocket connection is closed", c)
  else
    let room := (length (send c) <? sendCap)%nat in
    match pick with
    | PickComm =>
        if sendClosed c then Some (Panic "send on closed channel", c)
        else if room then
          Some (Nil,
                mkWS (ws_id c) (conn c) (ws_ctxDone c) (ws_closed c) (ws_logger c)
                     (send c ++ [message]) (sendClosed c) (ws_lastActivity c)
                     (writeTimeout c) (pongTimeout c))
        else None
    | PickCaller =>
        match ctx with
        | Some err => Some (Error err, c)
        | None => None
        end
    | PickOwn =>
        if ws_ctxDone c then Some (Error "connection closed", c) else None
    | PickTimer =>
        if sendClosed c || room || bool_decide (is_Some ctx) || ws_ctxDone c
        then None
        else Some (Error "send timeout", c)
    end.

(** [Close]; [now] is the reading of the clock for the write deadline. *)
Definition Close (now : N) (c : WebSocketConnection) : result * WebSocketConnection :=
  if ws_closed c then (Nil, c)
  else
    let k := SetWriteDeadline (now + writeTimeout c) (conn c) in
    let k := snd (WriteMessage CloseMessage
                    (FormatCloseMessage CloseNormalClosure "") k) in
    let k := closeSocket k in
    (Nil,
     mkWS (ws_id c) k true true
          (logf LevelInfo "WebSocket connection closed" (ws_logger c))
          (send c) true (ws_lastActivity c) (writeTimeout c) (pongTimeout c)).

End WS.

(** ** mockConnection, the connection of the hub tests *)

Record mockConnection : Type := mkMock {
  mock_id : string;
  mock_ctxDone : bool;
  mock_closed : bool;
  receivedMessages : list (option Message)
}.

Module Mock.

Definition Send (message : option Message) (m : mockConnection)
  : result * mockConnection :=
  (Nil, mkMock (mock_id m) (mock_ctxDone m) (mock_closed m)
               (receivedMessages m ++ [message])).

Definition Close (m : mockConnection) : result * mockConnection :=
  (Nil, mkMock (mock_id m) (mock_ctxDone m) true (receivedMessages m)).

End Mock.

(** ** The Connection interface and its implementations *)

Inductive Connection : Type :=
| ConnSSE (c : SSEConnection)
| ConnWS (c : WebSocketConnection)
| ConnMock (c : mockConnection).

Module Conn.

Definition ID (c : Connection) : string :=
  match c with
  | ConnSSE c => SSE.ID c
  | ConnWS c => WS.ID c
  | ConnMock c => mock_id c
  end.

Definition Type_ (c : Connection) : string :=
  match c with
  | ConnSSE c => SSE.Type_ c
  | ConnWS c => WS.Type_ c
  | ConnMock _ => "mock"
  end.

Definition IsClosed (c : Connection) : bool :=
  match c with
  | ConnSSE c => SSE.IsClosed c
  | ConnWS c => WS.IsClosed c
  | ConnMock c => mock_closed c
  end.

Definition Context (c : Connection) : bool :=
  match c with
  | ConnSSE c => SSE.Context c
  | ConnWS c => WS.Context c
  | ConnMock c => mock_ctxDone c
  end.

Definition Close (now : N) (c : Connection) : result * Connection :=
  match c with
  | ConnSSE c => let '(r, c) := SSE.Close c in (r, ConnSSE c)
  | ConnWS c => let '(r, c) := WS.Close now c in (r, ConnWS c)
  | ConnMock c => let '(r, c) := Mock.Close c in (r, ConnMock c)
  end.

Definition Send (json_encode : value -> string) (now : N) (pick : Pick)
    (ctx : Ctx) (message : option Message) (c : Connection)
  : option (result * Connection) :=
  match c with
  | ConnSSE c =>
      '(r, c) ← SSE.Send json_encode now pick ctx message c; Some (r, ConnSSE c)
  | ConnWS c =>
      '(r, c) ← WS.Send pick ctx message c; Some (r, ConnWS c)
  | ConnMock c =>
      let '(r, c) := Mock.Send message c in Some (r, ConnMock c)
  end.

End Conn.

(** ** Hub *)

(** Connections are objects shared between the hub, the transport handler
    and their own goroutines: the registry holds references into a store
    of connection objects. *)
Definition loc : Type := positive.

(** The connection behind [l] exists and reports itself closed. *)
Definition closedIn (σ : gmap loc Connection) (l : loc) : Prop :=
  ∃ c, σ !! l = Some c ∧ Conn.IsClosed c = true.

(** A goroutine the hub has started and does not wait for. *)
Inductive Goroutine : Type :=
| GoRun                                             (* h.run() *)
| GoWatch (conn : loc)                              (* <-conn.Context().Done() *)
| GoSendTo (ctx : Ctx) (conn : loc) (message : option Message)
| GoSendBroadcast (conn : loc) (message : option Message).

Record Hub : Type := mkHub {
  store : gmap loc Connection;     (* the connection objects *)
  connections : gmap string loc;   (* h.connections *)
  running : bool;
  logger : Logger;
  register : list loc;             (* the three channels, oldest first *)
  unregister : list string;
  broadcast : list (option Message);
  ctxDone : bool;                  (* h.ctx, set by Start, is cancelled *)
  goroutines : list Goroutine
}.

Module Hub.

Definition registerCap : nat := 100.
Definition unregisterCap : nat := 100.
Definition broadcastCap : nat := 1000.

Definition New (objects : gmap loc Connection) : Hub :=
  mkHub objects ∅ false [] [] [] [] false [].

Definition withLog (lvl : Level) (msg : string) (h : Hub) : Hub :=
  mkHub (store h) (connections h) (running h) (logf lvl msg (logger h))
        (register h) (unregister h) (broadcast h) (ctxDone h) (goroutines h).

Definition withStore (σ : gmap loc Connection) (h : Hub) : Hub :=
  mkHub σ (connections h) (running h) (logger h)
        (register h) (unregister h) (broadcast h) (ctxDone h) (goroutines h).

Definition withConnections (m : gmap string loc) (h : Hub) : Hub :=
  mkHub (store h) m (running h) (logger h)
        (register h) (unregister h) (broadcast h) (ctxDone h) (goroutines h).

Definition go (g : Goroutine) (h : Hub) : Hub :=
  mkHub (store h) (connections h) (running h) (logger h)
        (register h) (unregister h) (broadcast h) (ctxDone h)
        (goroutines h ++ [g]).

(** [Start]; [parent] is the caller's context, from which h.ctx derives. *)
Definition Start (parent : Ctx) (h : Hub) : result * Hub :=
  if running h then (Error "hub is already running", h)
  else
    let h := mkHub (store h) (connections h) true (logger h)
                   (register h) (unregister h) (broadcast h)
                   (bool_decide (is_Some parent)) (goroutines h) in
    let h := go GoRun h in
    (Nil, withLog LevelInfo "Hub started successfully" h).

(** The body of the loop of [Stop] for one registry entry.  (Go ranges
    over a map in no specified order; [map_to_list] fixes one.) *)
Definition closeEntry (now : N) (h : Hub) (entry : string * loc) : Hub :=
  match store h !! entry.2 with
  | None => h
  | Some c =>
      let '(err, c') := Conn.Close now c in
      let h := withStore (<[entry.2 := c']> (store h)) h in
      match err with
      | Error e =>
          withLog LevelError
            ("Failed to close connection " +:+ Conn.ID c' +:+ ": " +:+ e) h
      | _ => h
      end
  end.

Definition Stop (now : N) (h : Hub) : result * Hub :=
  if negb (running h) then (Nil, h)
  else
    let h := mkHub (store h) (connections h) (running h) (logger h)
                   (register h) (unregister h) (broadcast h) true
                   (goroutines h) in
    let h := fold_left (closeEntry now) (map_to_list (connections h)) h in
    let h := withConnections ∅ h in
    let h := mkHub (store h) (connections h) false (logger h)
                   (register h) (unregister h) (broadcast h) (ctxDone h)
                   (goroutines h) in
    (Nil, withLog LevelInfo "Hub stopped successfully" h).

Definition IsRunning (h : Hub) : bool := running h.

Definition RegisterConnection (pick : Pick) (conn : loc) (h : Hub)
  : option (result * Hub) :=
  if negb (IsRunning h) then Some (Error "hub is not running", h)
  else
    let room := (length (register h) <? registerCap)%nat in
    match pick with
    | PickComm =>
        if room then
          Some (Nil,
                mkHub (store h) (connections h) (running h) (logger h)
                      (register h ++ [conn]) (unregister h) (broadcast h)
                      (ctxDone h) (goroutines h))
        else None
    | PickOwn =>
        if ctxDone h then Some (Error "hub is shutting down", h) else None
    | PickTimer =>
        if room || ctxDone h then None
        else Some (Error "timeout registering connection", h)
    | PickCaller => None
    end.

Definition UnregisterConnection (pick : Pick) (connID : string) (h : Hub)
  : option (result * Hub) :=
  if negb (IsRunning h) then Some (Error "hub is not running", h)
  else
    let room := (length (unregister h) <? unregisterCap)%nat in
    match pick with
    | PickComm =>
        if room then
          Some (Nil,
                mkHub (store h) (connections h) (running h) (logger h)
                      (register h) (unregister h ++ [connID]) (broadcast h)
                      (ctxDone h) (goroutines h))
        else None
    | PickOwn =>
        if ctxDone h then Some (Error "hub is shutting down", h) else None
    | PickTimer =>
        if room || ctxDone h then None
        else Some (Error "timeout unregistering connection", h)
    | PickCaller => None
    end.

Definition GetConnection (connID : string) (h : Hub) : option loc :=
  connections h !! connID.

Definition GetConnections (h : Hub) : list loc :=
  (map_to_list (connections h)).*2.

Definition typeOf (h : Hub) (l : loc) : option string :=
  Conn.Type_ <$> store h !! l.

Definition GetConnectionsByType (connType : string) (h : Hub) : list loc :=
  filter (λ l, typeOf h l = Some connType) (GetConnections h).

Definition ConnectionCount (h : Hub) : nat := size (connections h).

Definition Broadcast (pick : Pick) (ctx : Ctx) (message : option Message) (h : Hub)
  : option (result * Hub) :=
  if negb (IsRunning h) then Some (Error "hub is not running", h)
  else
    let room := (length (broadcast h) <? broadcastCap)%nat in
    match pick with
    | PickComm =>
        if room then
          Some (Nil,
                mkHub (store h) (connections h) (running h) (logger h)
                      (register h) (unregister h) (broadcast h ++ [message])
                      (ctxDone h) (goroutines h))
        else None
    | PickCaller =>
        if bool_decide (is_Some ctx) then Some (Error "context cancelled", h)
        else None
    | PickOwn =>
        if ctxDone h then Some (Error "hub is shutting down", h) else None
    | PickTimer =>
        if room || bool_decide (is_Some ctx) || ctxDone h then None
        else Some (Error "timeout broadcasting message", h)
    end.

(** [BroadcastToType]: one goroutine per connection of the type. *)
Definition BroadcastToType (ctx : Ctx) (connType : string)
    (message : option Message) (h : Hub) : result * Hub :=
  let conns := GetConnectionsByType connType h in
  let h := fold_left (λ h c, go (GoSendTo ctx c message) h) conns h in
  (Nil,
   withLog LevelInfo
     ("Broadcasted message to " +:+ pretty (length conns)
        +:+ " connections of type " +:+ connType) h).

(** [SendToConnection]: [pick] is the case the select of Send commits to,
    [pickU] the one of the UnregisterConnection that follows a failed
    Send. *)
Definition SendToConnection (json_encode : value -> string) (now : N)
    (pick pickU : Pick) (ctx : Ctx) (connID : string)
    (message : option Message) (h : Hub) : option (result * Hub) :=
  match GetConnection connID h with
  | None => Some (Error ("connection " +:+ connID +:+ " not found"), h)
  | Some l =>
      c ← store h !! l;
      '(r, c') ← Conn.Send json_encode now pick ctx message c;
      let h := withStore (<[l := c']> (store h)) h in
      match r with
      | Error err =>
          let h := withLog LevelError
                     ("Failed to send message to connection " +:+ connID
                        +:+ ": " +:+ err) h in
          '(_, h) ← UnregisterConnection pickU connID h;
          Some (Error err, h)
      | r => Some (r, h)
      end
  end.

(** [handleRegister]; the registry never holds a nil Connection, since
    conn.ID() on one panics before the assignment. *)
Definition handleRegister (conn : loc) (h : Hub) : Hub :=
  match store h !! conn with
  | None => h
  | Some c =>
      let h := withConnections (<[Conn.ID c := conn]> (connections h)) h in
      let h := withLog LevelInfo
                 ("Connection " +:+ Conn.ID c +:+ " registered (type: "
                    +:+ Conn.Type_ c +:+ ")") h in
      go (GoWatch conn) h
  end.

(** [handleUnregister] *)
Definition handleUnregister (now : N) (connID : string) (h : Hub) : Hub :=
  match connections h !! connID with
  | Some l =>
      let h := withConnections (delete connID (connections h)) h in
      let h :=
        match store h !! l with
        | Some c => withStore (<[l := (Conn.Close now c).2]> (store h)) h
        | None => h
        end in
      withLog LevelInfo ("Connection " +:+ connID +:+ " unregistered") h
  | None => h
  end.

(** [handleBroadcast]; the message is dereferenced for the log line. *)
Definition handleBroadcast (message : option Message) (h : Hub) : result * Hub :=
  let conns := GetConnections h in
  let h := fold_left (λ h c, go (GoSendBroadcast c message) h) conns h in
  match message with
  | None => (Panic "invalid memory address or nil pointer dereference", h)
  | Some m =>
      (Nil,
       withLog LevelInfo
         ("Broadcasted message " +:+ ID m +:+ " to "
            +:+ pretty (length conns) +:+ " connections") h)
  end.

(** Does the connection behind the reference report itself closed? *)
Definition closedAt (h : Hub) (l : loc) : bool :=
  match store h !! l with
  | Some c => Conn.IsClosed c
  | None => false
  end.

(** [cleanupClosedConnections]: collect the ids, then delete each, in
    the order [map_to_list] ranges over the registry. *)
Definition cleanupClosedConnections (h : Hub) : Hub :=
  let closedConnections :=
    (filter (λ e, closedAt h e.2 = true) (map_to_list (connections h))).*1 in
  fold_left
    (λ h id,
       withLog LevelInfo ("Cleaned up closed connection " +:+ id)
         (withConnections (delete id (connections h)) h))
    closedConnections h.

(** What the select of [run] received. *)
Inductive Event : Type :=
| EvRegister | EvUnregister | EvBroadcast | EvTick | EvDone.

(** One iteration of the loop of [run]; [None] when the case picked has
    nothing to receive.  The boolean tells whether the loop goes on (it
    does not after h.ctx is done, nor after a panic). *)
Definition run1 (now : N) (ev : Event) (h : Hub) : option (bool * Hub) :=
  match ev with
  | EvRegister =>
      match register h with
      | conn :: rest =>
          let h := mkHub (store h) (connections h) (running h) (logger h)
                         rest (unregister h) (broadcast h) (ctxDone h)
                         (goroutines h) in
          Some (true, handleRegister conn h)
      | [] => None
      end
  | EvUnregister =>
      match unregister h with
      | connID :: rest =>
          let h := mkHub (store h) (connections h) (running h) (logger h)
                         (register h) rest (broadcast h) (ctxDone h)
                         (goroutines h) in
          Some (true, handleUnregister now connID h)
      | [] => None
      end
  | EvBroadcast =>
      match broadcast h with
      | message :: rest =>
          let h := mkHub (store h) (connections h) (running h) (logger h)
                         (register h) (unregister h) rest (ctxDone h)
                         (goroutines h) in
          match handleBroadcast message h with
          | (Panic _, h) => Some (false, h)
          | (_, h) => Some (true, h)
          end
      | [] => None
      end
  | EvTick => Some (true, cleanupClosedConnections h)
  | EvDone =>
      if ctxDone h
      then Some (false, withLog LevelInfo "Hub run loop stopped" h)
      else None
  end.

End Hub.

(** ** message.go: the other factories, the type check, the priority *)

Definition MessageTypeConnection : string := "connection".
Definition MessageTypeKeepAlive : string := "keepalive".
Definition MessageTypeError : string := "error".
Definition MessageTypeUpdate : string := "update".
Definition MessageTypeSystem : string := "system".
Definition MessageTypeBroadcast : string := "broadcast".
Definition PriorityLow : string := "low".
Definition PriorityCritical : string := "critical".

Section Factories.

Variable clock : nat -> N.
Variable Format : bool -> string -> N -> string.

Definition SystemMessage (t : nat) (action : string) (data : value) : Message :=
  Build clock Format t
    (WithPriority PriorityNormal
       (WithData (VMap [("action", VString action); ("data", data)])
          (WithType MessageTypeSystem NewMessageBuilder))).

Definition UpdateMessage (t : nat) (resource : string) (data : value) : Message :=
  Build clock Format t
    (WithPriority PriorityNormal
       (WithData (VMap [("resource", VString resource); ("data", data)])
          (WithType MessageTypeUpdate NewMessageBuilder))).

Definition BroadcastMessage (t : nat) (data : value) : Message :=
  Build clock Format t
    (WithPriority PriorityNormal
       (WithData data (WithType MessageTypeBroadcast NewMessageBuilder))).

Definition ErrorMessage (t : nat) (code msg : string) (details : value) : Message :=
  Build clock Format t
    (WithPriority PriorityHigh
       (WithData (VMap [("code", VString code); ("message", VString msg);
                        ("details", details)])
          (WithType MessageTypeError NewMessageBuilder))).

End Factories.

Definition validTypes : list string :=
  [MessageTypeConnection; MessageTypeNotification; MessageTypeKeepAlive;
   MessageTypeError; MessageTypeAlert; MessageTypeUpdate; MessageTypeSystem;
   MessageTypeBroadcast].

Definition IsValidMessageType (msgType : string) : bool :=
  existsb (λ validType, String.eqb validType msgType) validTypes.

(** The four priority levels. *)
Definition priorities : list string :=
  [PriorityLow; PriorityNormal; PriorityHigh; PriorityCritical].

(** The headers of a message as a map; the nil map holds nothing. *)
Definition headersOf (m : Message) : gmap string string :=
  match Headers m with Some h => h | None => ∅ end.

Definition GetMessagePriority (message : Message) : string :=
  match Headers message with
  | None => PriorityNormal
  | Some headers =>
      match headers !! "priority" with
      | None => PriorityNormal
      | Some priority =>
          if String.eqb priority PriorityLow || String.eqb priority PriorityNormal
             || String.eqb priority PriorityHigh
             || String.eqb priority PriorityCritical
          then priority
          else PriorityNormal
      end
  end.

(** ** SSEConnection: the keep-alive loop *)

Module SSEConn.

Definition second : N := 1000000000.
Definition minute : N := (60 * second)%N.

(** The message of one keep-alive: [tId] and [tTs] are the two readings
    of the clock it is built from. *)
Definition keepAliveMsg (tId tTs : N) : Message :=
  mkMessage ("keepalive-" +:+ pretty (tId / second)%N) "keepalive"
    (VMap [("timestamp", VInt (Z.of_N (tTs / second)%N));
           ("message", VString "connection alive")])
    None.

(** What the select of [keepAlive] received. *)
Inductive Event : Type := Tick | Done.

(** One iteration of the loop of [keepAlive], the clock having been read
    [t] times; the boolean tells whether the loop goes on.  [pick] is the
    case the select of Send commits to. *)
Definition keepAlive1 (json_encode : value -> string) (clock : nat -> N)
    (t : nat) (pick : Pick) (ev : Event) (c : SSEConnection)
  : option (bool * SSEConnection) :=
  match ev with
  | Tick =>
      if SSE.IsClosed c then Some (false, c)
      else if (5 * minute <? clock t - sse_lastActivity c)%N then
        let c := SSE.withLog LevelInfo
                   "Connection inactive for too long, closing connection" c in
        Some (false, (SSE.Close c).2)
      else
        let keepAliveMsg := keepAliveMsg (clock (t + 1)) (clock (t + 2)) in
        '(err, c) ← SSE.Send json_encode (clock (t + 3)) pick None
                      (Some keepAliveMsg) c;
        match err with
        | Error e =>
            let c := SSE.withLog LevelError
                       ("Failed to send keep-alive: " +:+ e) c in
            Some (false, (SSE.Close c).2)
        | _ => Some (true, c)
        end
  | Done => if sse_ctxDone c then Some (false, c) else None
  end.

End SSEConn.

(** ** WebSocketConnection: the two pumps *)

Module WSConn.

Definition TextMessage : N := 1.
Definition PingMessage : N := 9.

Definition withConn (k : Socket) (c : WebSocketConnection) : WebSocketConnection :=
  mkWS (ws_id c) k (ws_ctxDone c) (ws_closed c) (ws_logger c) (send c)
       (sendClosed c) (ws_lastActivity c) (writeTimeout c) (pongTimeout c).

Definition withLog (lvl : Level) (msg : string) (c : WebSocketConnection)
  : WebSocketConnection :=
  mkWS (ws_id c) (conn c) (ws_ctxDone c) (ws_closed c)
       (logf lvl msg (ws_logger c)) (send c) (sendClosed c)
       (ws_lastActivity c) (writeTimeout c) (pongTimeout c).

Definition updateActivity (now : N) (c : WebSocketConnection)
  : WebSocketConnection :=
  mkWS (ws_id c) (conn c) (ws_ctxDone c) (ws_closed c) (ws_logger c) (send c)
       (sendClosed c) now (writeTimeout c) (pongTimeout c).

(** websocket.Conn.WriteJSON: a text frame holding the JSON of the
    message.  When json cannot encode the message the frame that was begun
    is still closed, so an empty text frame goes out with the error. *)
Definition WriteJSON (v : option Message) (k : Socket) : option string * Socket :=
  if sockClosed k then (Some "use of closed network connection", k)
  else
    match v ≫= (λ m, json_unsupported (Data m)) with
    | Some ty =>
        (Some ("json: unsupported type: " +:+ ty),
         mkSocket (written k ++ [RawFrame TextMessage ""]) (sockClosed k)
                  (writeDeadline k) (readDeadline k))
    | None =>
        (None,
         mkSocket (written k ++ [JSONFrame v]) (sockClosed k)
                  (writeDeadline k) (readDeadline k))
    end.

(** What the select of [writePump] received: a value (or the closing) of
    c.send, a tick of the ping ticker, or c.ctx.Done(). *)
Inductive PumpEvent : Type := Recv | Tick | Done.

(** The deferred function of [writePump]. *)
Definition leavePump (c : WebSocketConnection) : WebSocketConnection :=
  withConn (closeSocket (conn c)) c.

(** One iteration of the loop of [writePump], the clock having been read
    [t] times; the boolean tells whether the loop goes on. *)
Definition writePump1 (clock : nat -> N) (t : nat) (ev : PumpEvent)
    (c : WebSocketConnection) : option (bool * WebSocketConnection) :=
  match ev with
  | Recv =>
      match send c with
      | message :: rest =>
          let c := mkWS (ws_id c) (conn c) (ws_ctxDone c) (ws_closed c)
                        (ws_logger c) rest (sendClosed c) (ws_lastActivity c)
                        (writeTimeout c) (pongTimeout c) in
          let k := SetWriteDeadline (clock t + writeTimeout c) (conn c) in
          match WriteJSON message k with
          | (Some err, k) =>
              let c := withLog LevelError
                         ("Failed to write message: " +:+ err) (withConn k c) in
              Some (false, leavePump c)
          | (None, k) =>
              Some (true, updateActivity (clock (t + 1)) (withConn k c))
          end
      | [] =>
          if sendClosed c then
            let k := SetWriteDeadline (clock t + writeTimeout c) (conn c) in
            let k := (WriteMessage CloseMessage "" k).2 in
            Some (false, leavePump (withConn k c))
          else None
      end
  | Tick =>
      let k := SetWriteDeadline (clock t + writeTimeout c) (conn c) in
      match WriteMessage PingMessage "" k with
      | (Some err, k) =>
          let c := withLog LevelError
                     ("Failed to send ping: " +:+ err) (withConn k c) in
          Some (false, leavePump c)
      | (None, k) => Some (true, withConn k c)
      end
  | Done => if ws_ctxDone c then Some (false, leavePump c) else None
  end.

(** The pump run on receive events until the queue is empty or the pump
    stops; [n] bounds the number of iterations. *)
Fixpoint drain (clock : nat -> N) (t : nat) (n : nat) (c : WebSocketConnection)
  : bool * WebSocketConnection :=
  match n with
  | O => (true, c)
  | S n' =>
      match send c with
      | [] => (true, c)
      | _ =>
          match writePump1 clock t Recv c with
          | Some (true, c') => drain clock (t + 2) n' c'
          | Some (false, c') => (false, c')
          | None => (true, c)
          end
      end
  end.




End WSConn.

(** ** Hub: the goroutines it starts *)

Module HubGo.

(** The body of the goroutine that sends one message to one connection;
    [failed] is the start of the line it logs when Send fails. *)
Definition sendBody (failed : string) (json_encode : value -> string) (now : N)
    (pick pickU : Pick) (ctx : Ctx) (l : loc) (message : option Message)
    (h : Hub) : option (result * Hub) :=
  c ← store h !! l;
  '(err, c') ← Conn.Send json_encode now pick ctx message c;
  let h := Hub.withStore (<[l := c']> (store h)) h in
  match err with
  | Error e =>
      let h := Hub.withLog LevelError
                 (failed +:+ Conn.ID c' +:+ ": " +:+ e) h in
      '(_, h) ← Hub.UnregisterConnection pickU (Conn.ID c') h;
      Some (Nil, h)
  | r => Some (r, h)
  end.

(** One goroutine run to its end.  [ctxB] is the state of the ten second
    context of a broadcast send when its select commits. *)
Definition run (json_encode : value -> string) (now : N) (pick pickU : Pick)
    (ctxB : Ctx) (g : Goroutine) (h : Hub) : option (result * Hub) :=
  match g with
  | GoSendTo ctx l message =>
      sendBody "Failed to send message to connection " json_encode now
               pick pickU ctx l message h
  | GoSendBroadcast l message =>
      sendBody "Failed to send broadcast to connection " json_encode now
               pick pickU ctxB l message h
  | GoWatch l =>
      c ← store h !! l;
      if Conn.Context c then
        '(_, h) ← Hub.UnregisterConnection pickU (Conn.ID c) h;
        Some (Nil, h)
      else None
  | GoRun => None
  end.

(** The goroutines of a list run one after the other. *)
Fixpoint runAll (json_encode : value -> string) (now : N) (pick pickU : Pick)
    (ctxB : Ctx) (gs : list Goroutine) (h : Hub) : option Hub :=
  match gs with
  | [] => Some h
  | g :: gs' =>
      '(_, h) ← run json_encode now pick pickU ctxB g h;
      runAll json_encode now pick pickU ctxB gs' h
  end.

End HubGo.

(** The three channels hold no more than their capacity. *)
Definition bounded (h : Hub) : Prop :=
  length (register h) ≤ Hub.registerCap
  ∧ length (unregister h) ≤ Hub.unregisterCap
  ∧ length (broadcast h) ≤ Hub.broadcastCap.

(** The queues of two hubs are the same. *)
Definition sameQueues (h h' : Hub) : Prop :=
  register h' = register h ∧ unregister h' = unregister h
  ∧ broadcast h' = broadcast h.

(** ** The connections of the hub tests *)

Module Fixtures.

Definition mock (id : string) : Connection := ConnMock (mkMock id false false []).

Definition objects : gmap loc Connection :=
  <[1%positive := mock "test-conn-1"]> (<[2%positive := mock "conn-2"]> ∅).

(** The hub after New, Start and a RegisterConnection of test-conn-1
    that returned nil: the registration is in the channel, the loop has
    not received it yet. *)
Definition queued : Hub :=
  let h := (Hub.Start None (Hub.New objects)).2 in
  match Hub.RegisterConnection PickComm 1%positive h with
  | Some (_, h') => h'
  | None => h
  end.

(** [queued] after Stop and then one more iteration of the loop, whose
    select received the registration. *)
Definition leftover : Hub :=
  let h := (Hub.Stop 5 queued).2 in
  match Hub.run1 6 Hub.EvRegister h with
  | Some (_, h') => h'
  | None => h
  end.

End Fixtures.

(** * Properties *)

(** ** Ranging over a string *)

Module Utf8Facts.
Import Utf8.

#[local] Arguments second_ok : simpl never.
#[local] Arguments isCont : simpl never.
#[local] Arguments isASCII : simpl never.
#[local] Arguments runeLen : simpl never.

Lemma ascii_not_cont t : isASCII t = true → isCont t = false.
Proof.
  unfold isASCII, isCont, byte_in. intros H%N.ltb_lt.
  apply andb_false_iff. left. apply N.leb_gt. lia.
Qed.

Lemma ascii_not_second b0 t : isASCII t = true → second_ok b0 t = false.
Proof.
  intros H. pose proof (ascii_not_cont t H) as Hc.
  unfold isASCII in H. apply N.ltb_lt in H.
  unfold second_ok, byte_in.
  repeat case_match; try done;
    apply andb_false_iff; left; apply N.leb_gt; lia.
Qed.

Lemma runeLen_ascii b : isASCII b = true → runeLen b = 1.
Proof. unfold runeLen. by intros ->. Qed.

Lemma runeLen_1_ascii b : runeLen b = 1 → isASCII b = true.
Proof. unfold runeLen. repeat case_match; done. Qed.

Lemma runes_unfold b0 s1 :
  runes (String b0 s1) = (decode b0 s1).1 :: runes (skip (decode b0 s1).2 s1).
Proof.
  unfold decode. cbn [runes].
  destruct (runeLen b0) as [|[|[|[|[|n]]]]]; try done.
  - destruct s1 as [|b1 s2]; [done|]. by destruct (second_ok b0 b1).
  - destruct s1 as [|b1 [|b2 s3]]; try done.
    by destruct (second_ok b0 b1 && isCont b2).
  - destruct s1 as [|b1 [|b2 [|b3 s4]]]; try done.
    by destruct (second_ok b0 b1 && isCont b2 && isCont b3).
Qed.

Lemma decode_bound b0 s1 : (decode b0 s1).2 ≤ String.length s1.
Proof.
  unfold decode.
  destruct (runeLen b0) as [|[|[|[|[|n]]]]]; cbn; try lia.
  - destruct s1 as [|b1 s2]; cbn; [lia|]. destruct (second_ok b0 b1); cbn; lia.
  - destruct s1 as [|b1 [|b2 s3]]; cbn; try lia.
    destruct (second_ok b0 b1 && isCont b2); cbn; lia.
  - destruct s1 as [|b1 [|b2 [|b3 s4]]]; cbn; try lia.
    destruct (second_ok b0 b1 && isCont b2 && isCont b3); cbn; lia.
Qed.

(** An ASCII byte after [a1] never completes an encoding begun in [a1]. *)
Lemma decode_app_ascii b0 a1 t b :
  isASCII t = true → decode b0 (a1 +:+ String t b) = decode b0 a1.
Proof.
  intros Ht. pose proof (ascii_not_cont t Ht) as Hc.
  pose proof (ascii_not_second b0 t Ht) as Hs.
  unfold decode.
  destruct (runeLen b0) as [|[|[|[|[|n]]]]]; try done.
  - destruct a1 as [|b1 a2]; cbn; [by rewrite Hs|done].
  - destruct a1 as [|b1 [|b2 a3]]; cbn; try done.
    + destruct b; [done|]. by rewrite Hs.
    + by rewrite Hc, andb_false_r.
  - destruct a1 as [|b1 [|b2 [|b3 a4]]]; cbn; try done.
    + destruct b as [|? [|? ?]]; try done. by rewrite Hs.
    + destruct b; [done|]. by rewrite Hc, andb_false_r.
    + by rewrite Hc, andb_false_r.
Qed.

Lemma decode_ascii b0 s1 : isASCII b0 = true → decode b0 s1 = (String b0 "", 0).
Proof. intros H. unfold decode. by rewrite (runeLen_ascii _ H). Qed.

Lemma RuneError_not_byte t : RuneError ≠ String t "".
Proof. done. Qed.

(** A rune of one ASCII byte is read from that very byte. *)
Lemma decode_byte b0 s1 t :
  (decode b0 s1).1 = String t "" → b0 = t ∧ isASCII b0 = true.
Proof.
  unfold decode.
  destruct (runeLen b0) as [|[|[|[|[|n]]]]] eqn:E; cbn; try done.
  - intros [= ->]. split; [done|]. by apply runeLen_1_ascii.
  - destruct s1 as [|b1 s2]; cbn; [done|]. by destruct (second_ok b0 b1).
  - destruct s1 as [|b1 [|b2 s3]]; cbn; try done.
    by destruct (second_ok b0 b1 && isCont b2).
  - destruct s1 as [|b1 [|b2 [|b3 s4]]]; cbn; try done.
    by destruct (second_ok b0 b1 && isCont b2 && isCont b3).
Qed.

Lemma decode_nonempty b0 s1 : (decode b0 s1).1 ≠ "".
Proof.
  unfold decode.
  destruct (runeLen b0) as [|[|[|[|[|n]]]]]; cbn; try done.
  - destruct s1 as [|b1 s2]; cbn; [done|]. by destruct (second_ok b0 b1).
  - destruct s1 as [|b1 [|b2 s3]]; cbn; try done.
    by destruct (second_ok b0 b1 && isCont b2).
  - destruct s1 as [|b1 [|b2 [|b3 s4]]]; cbn; try done.
    by destruct (second_ok b0 b1 && isCont b2 && isCont b3).
Qed.

Lemma skip_length k s : String.length (skip k s) ≤ String.length s.
Proof.
  revert s. induction k as [|k IH]; intros [|b s]; cbn; try lia.
  specialize (IH s). lia.
Qed.

Lemma skip_app k s x :
  k ≤ String.length s → skip k (s +:+ x) = skip k s +:+ x.
Proof.
  revert s. induction k as [|k IH]; intros [|b s]; cbn; try done; try lia.
  intros H. apply IH. lia.
Qed.

Lemma string_app_assoc (a b c : string) : (a +:+ b) +:+ c = a +:+ (b +:+ c).
Proof. induction a as [|x a IH]; cbn; [done|]. by rewrite IH. Qed.

Lemma string_app_nil_r (a : string) : a +:+ "" = a.
Proof. induction a as [|x a IH]; cbn; [done|]. by rewrite IH. Qed.

(** Appends flattened to the right, literals unfolded. *)
Ltac str_norm :=
  repeat (progress cbn [String.append]
          || rewrite string_app_assoc
          || rewrite string_app_nil_r).

(** An ASCII byte is always read as a rune of its own, whatever bytes
    come before it. *)
Lemma runes_app_ascii a t b :
  isASCII t = true →
  runes (a +:+ String t b) = runes a ++ String t "" :: runes b.
Proof.
  intros Ht.
  assert (∀ n a, String.length a ≤ n →
            runes (a +:+ String t b) = runes a ++ String t "" :: runes b)
    as H; [|by apply (H (String.length a))].
  clear a. induction n as [|n IH]; intros [|b0 a1] Hlen; cbn in Hlen; try lia.
  - cbn [String.append]. rewrite runes_unfold, (decode_ascii _ _ Ht). done.
  - cbn [String.append]. rewrite runes_unfold, (decode_ascii _ _ Ht). done.
  - change (String b0 a1 +:+ String t b) with (String b0 (a1 +:+ String t b)).
    rewrite !runes_unfold, (decode_app_ascii _ _ _ _ Ht).
    pose proof (decode_bound b0 a1) as Hk.
    rewrite (skip_app _ _ _ Hk). cbn [app]. f_equal.
    apply IH. pose proof (skip_length (decode b0 a1).2 a1). lia.
Qed.



Lemma reencode_nonempty s : s ≠ "" → reencode s ≠ "".
Proof.
  destruct s as [|b0 s1]; [done|]. intros _. unfold reencode.
  rewrite runes_unfold. cbn [fold_right].
  pose proof (decode_nonempty b0 s1) as H.
  destruct (decode b0 s1).1; [done|]. done.
Qed.

End Utf8Facts.

(** ** splitLines *)

Module SplitFacts.
Import Utf8 Utf8Facts.

Lemma isTerminator_cases t : isTerminator t = true → t = LF ∨ t = CR.
Proof.
  unfold isTerminator. intros [H|H]%orb_true_iff; apply Ascii.eqb_eq in H; auto.
Qed.

Lemma terminator_ascii t : isTerminator t = true → isASCII t = true.
Proof. by intros [->| ->]%isTerminator_cases. Qed.

Lemma splitStep_terminator t lines current :
  isTerminator t = true →
  splitStep (lines, current) (String t "") = (lines ++ [current], "").
Proof. by intros [->| ->]%isTerminator_cases. Qed.

Lemma splitStep_other r lines current :
  r ≠ nl → r ≠ cr →
  splitStep (lines, current) r = (lines, current +:+ r).
Proof.
  intros H1 H2. unfold splitStep.
  apply String.eqb_neq in H1, H2. by rewrite H1, H2.
Qed.

Lemma splitLoop_nil st : splitLoop "" st = st.
Proof. done. Qed.

(** A terminator ends the line being built, whatever came before it. *)
Lemma splitLoop_app_terminator a t b st :
  isTerminator t = true →
  splitLoop (a +:+ String t b) st =
  splitLoop b ((splitLoop a st).1 ++ [(splitLoop a st).2], "").
Proof.
  intros Ht. unfold splitLoop.
  rewrite (runes_app_ascii _ _ _ (terminator_ascii _ Ht)), fold_left_app.
  cbn [fold_left]. destruct (fold_left splitStep (runes a) st) as [lines current].
  by rewrite (splitStep_terminator _ _ _ Ht).
Qed.

Lemma terminators_skip k s : terminators s = 0 → terminators (skip k s) = 0.
Proof.
  revert s. induction k as [|k IH]; intros [|b s]; cbn; try done.
  intros H. apply IH. lia.
Qed.

(** Without a terminator the loop only extends the current line. *)
Lemma splitLoop_line a lines current :
  terminators a = 0 →
  splitLoop a (lines, current) = (lines, current +:+ reencode a).
Proof.
  assert (∀ n a current, String.length a ≤ n → terminators a = 0 →
            splitLoop a (lines, current) = (lines, current +:+ reencode a))
    as H; [|by apply (H (String.length a))].
  clear. induction n as [|n IH]; intros [|b0 a1] current Hlen Ht;
    cbn in Hlen; try lia;
    try (unfold splitLoop, reencode; cbn; by rewrite string_app_nil_r).
  unfold splitLoop, reencode. rewrite runes_unfold. cbn [fold_left fold_right].
  cbn [terminators] in Ht.
  destruct (isTerminator b0) eqn:Hb0; [lia|]. cbn in Ht.
  rewrite splitStep_other.
  - fold (splitLoop (skip (decode b0 a1).2 a1) (lines, current +:+ (decode b0 a1).1)).
    rewrite IH.
    + by rewrite string_app_assoc.
    + pose proof (skip_length (decode b0 a1).2 a1). lia.
    + by apply terminators_skip.
  - intros [-> _]%decode_byte. done.
  - intros [-> _]%decode_byte. done.
Qed.

Lemma terminators_app a b : terminators (a +:+ b) = terminators a + terminators b.
Proof. induction a as [|x a IH]; cbn; [done|]. rewrite IH. lia. Qed.

Lemma string_length_app a b :
  String.length (a +:+ b) = String.length a + String.length b.
Proof. induction a as [|x a IH]; cbn; [done|]. by rewrite IH. Qed.

(** A string has no terminator, or splits at its first one. *)
Lemma first_terminator s :
  terminators s = 0 ∨
  ∃ a t b, s = a +:+ String t b ∧ terminators a = 0 ∧ isTerminator t = true.
Proof.
  induction s as [|x s IH]; [by left|].
  destruct (isTerminator x) eqn:Hx.
  - right. by exists "", x, s.
  - destruct IH as [IH|(a & t & b & -> & Ha & Ht)].
    + left. cbn. by rewrite Hx.
    + right. exists (String x a), t, b. cbn. by rewrite Hx.
Qed.

Lemma endsInTerminator_none s : terminators s = 0 → endsInTerminator s = false.
Proof.
  induction s as [|x s IH]; [done|]. cbn [terminators].
  destruct (isTerminator x) eqn:Hx; [lia|]. cbn. intros H.
  destruct s; [done|]. by apply IH.
Qed.

Lemma endsInTerminator_app a t b :
  endsInTerminator (a +:+ String t b) =
  match b with "" => isTerminator t | _ => endsInTerminator b end.
Proof.
  induction a as [|x a IH]; cbn.
  - by destruct b.
  - rewrite <- IH. by destruct a.
Qed.

(** The loop adds one line per terminator. *)
Lemma splitLoop_lines s lines current :
  length (splitLoop s (lines, current)).1 = length lines + terminators s.
Proof.
  assert (∀ n s lines current, String.length s ≤ n →
    length (splitLoop s (lines, current)).1 = length lines + terminators s)
    as H; [|by apply (H (String.length s))].
  clear. induction n as [|n IH]; intros s lines current Hlen.
  - destruct s; cbn in Hlen; [|lia]. cbn. lia.
  - destruct (first_terminator s) as [Hs|(a & t & b & -> & Ha & Ht)].
    + rewrite (splitLoop_line _ _ _ Hs). cbn. lia.
    + rewrite (splitLoop_app_terminator _ _ _ _ Ht), (splitLoop_line _ _ _ Ha).
      cbn [fst snd]. rewrite IH.
      * rewrite length_app, terminators_app. cbn. rewrite Ha, Ht. lia.
      * rewrite string_length_app in Hlen. cbn in Hlen. lia.
Qed.

(** The line left in [current] when the loop ends is empty exactly when
    the string ends in a terminator. *)
Lemma splitLoop_current s lines current :
  s ≠ "" →
  (splitLoop s (lines, current)).2 = "" ↔ endsInTerminator s = true.
Proof.
  assert (∀ n s lines current, String.length s ≤ n → s ≠ "" →
    (splitLoop s (lines, current)).2 = "" ↔ endsInTerminator s = true)
    as H; [|by apply (H (String.length s))].
  clear. induction n as [|n IH]; intros s lines current Hlen Hne.
  - destruct s; cbn in Hlen; [done|lia].
  - destruct (first_terminator s) as [Hs|(a & t & b & -> & Ha & Ht)].
    + rewrite (splitLoop_line _ _ _ Hs), (endsInTerminator_none _ Hs). cbn.
      split; [|done]. intros H. exfalso.
      apply (reencode_nonempty _ Hne).
      destruct current; [done|]. done.
    + rewrite (splitLoop_app_terminator _ _ _ _ Ht), (splitLoop_line _ _ _ Ha).
      cbn [fst snd]. rewrite endsInTerminator_app.
      destruct b as [|y b]; [by rewrite Ht|].
      apply IH; [|done]. rewrite string_length_app in Hlen. cbn in Hlen. cbn. lia.
Qed.

Lemma splitLines_nonempty s :
  s ≠ "" →
  splitLines s =
    if endsInTerminator s then (splitLoop s ([], "")).1
    else (splitLoop s ([], "")).1 ++ [(splitLoop s ([], "")).2].
Proof.
  intros Hne. unfold splitLines.
  destruct (String.eqb_spec s ""); [done|].
  pose proof (splitLoop_current s [] "" Hne) as Hc.
  pose proof (splitLoop_lines s [] "") as Hl.
  destruct (splitLoop s ([], "")) as [lines current]. cbn [fst snd] in *.
  destruct (endsInTerminator s) eqn:He.
  - assert (current = "") as -> by by apply Hc.
    assert (0 < terminators s).
    { clear -He. induction s as [|x s IH]; [done|]. cbn in *.
      destruct s; [rewrite He; lia|]. specialize (IH He). lia. }
    cbn. destruct lines; [cbn in Hl; lia|done].
  - destruct (String.eqb_spec current ""); [|done].
    destruct Hc as [Hc _]. by specialize (Hc ltac:(done)).
Qed.

(** The number of lines: one per terminator, and one more for the text
    after the last terminator unless there is none. *)
Lemma splitLines_length s :
  length (splitLines s) =
  terminators s + (if endsInTerminator s then 0 else 1).
Proof.
  destruct (decide (s = "")) as [->|Hne]; [done|].
  rewrite (splitLines_nonempty _ Hne).
  pose proof (splitLoop_lines s [] "") as Hl. cbn in Hl.
  destruct (endsInTerminator s); [lia|].
  rewrite length_app. cbn. lia.
Qed.

(** [append] of each data line in turn, as one concatenation. *)
Lemma appendDataLines_concat result lines :
  appendDataLines result lines =
  result +:+ fold_right String.append ""
               ((λ line, "data: " +:+ line +:+ nl) <$> lines).
Proof.
  revert result. induction lines as [|l lines IH]; intros result; cbn.
  - by rewrite string_app_nil_r.
  - unfold appendDataLines in IH. rewrite IH. by rewrite string_app_assoc.
Qed.

(** The lines of [strings.Join(init ++ [lst], "\n")]. *)
Lemma splitLoop_join init lst lines current :
  Forall (λ l, terminators l = 0) (init ++ [lst]) →
  splitLoop (join nl (init ++ [lst])) (lines, current) =
    match init with
    | [] => (lines, current +:+ reencode lst)
    | i :: init' =>
        (lines ++ (current +:+ reencode i) :: (reencode <$> init'), reencode lst)
    end.
Proof.
  revert lines current. induction init as [|i init IH]; intros lines current H.
  - cbn. apply splitLoop_line. by inversion H.
  - inversion H as [|?? Hi Hrest]; subst.
    assert (join nl ((i :: init) ++ [lst]) = i +:+ String LF (join nl (init ++ [lst])))
      as -> by by destruct init.
    rewrite splitLoop_app_terminator by done.
    rewrite (splitLoop_line _ _ _ Hi). cbn [fst snd].
    rewrite (IH _ _ Hrest). destruct init as [|j init]; cbn.
    + done.
    + by rewrite <- app_assoc.
Qed.

End SplitFacts.

(** ** The SSE framing *)

Module FramingFacts.
Import Utf8 Utf8Facts SplitFacts.

(** The frame of a message whose id and type are set and whose payload is
    a string. *)
Lemma formatSSEMessage_string json_encode id ty payload hdrs :
  id ≠ "" → ty ≠ "" →
  formatSSEMessage json_encode (mkMessage id ty (VString payload) hdrs) =
  Val ("id: " +:+ id +:+ nl +:+ "event: " +:+ ty +:+ nl +:+
       fold_right String.append "" (dataLine <$> splitLines payload) +:+ nl).
Proof.
  intros Hid Hty. unfold formatSSEMessage. cbn [ID Type_ Data].
  apply String.eqb_neq in Hid, Hty. rewrite Hid, Hty. cbn [negb].
  rewrite appendDataLines_concat. f_equal.
  change ("" +:+ ?x) with x.
  change ("id: " +:+ ?x) with (String "i" (String "d" (String ":" (String " " x)))).
  fold dataLine.
  rewrite !string_app_assoc. cbn [String.append]. by rewrite !string_app_assoc.
Qed.

Lemma splitLines_join init lst :
  Forall (λ l, terminators l = 0 ∧ reencode l = l) (init ++ [lst]) →
  lst ≠ "" ∨ init = [] →
  splitLines (join nl (init ++ [lst])) = init ++ [lst].
Proof.
  intros Hall Hlast.
  assert (Forall (λ l, terminators l = 0) (init ++ [lst])) as Hterm
    by (eapply Forall_impl; [exact Hall|]; by intros ? [? ?]).
  assert (reencode <$> (init ++ [lst]) = init ++ [lst]) as Hre.
  { clear -Hall. induction Hall as [|l ls [_ Hl] _ IH]; [done|].
    cbn. by rewrite Hl, IH. }
  pose proof (splitLoop_join init lst [] "" Hterm) as Hloop.
  unfold splitLines.
  destruct (String.eqb_spec (join nl (init ++ [lst])) "") as [E|NE].
  - destruct init as [|i init]; cbn in E.
    + by rewrite E.
    + exfalso. destruct (init ++ [lst]) eqn:E2; [by destruct init|].
      by destruct i.
  - rewrite Hloop. rewrite fmap_app in Hre. cbn in Hre.
    destruct init as [|i init].
    + cbn in Hre. injection Hre as Hre. cbn [String.append] in *. rewrite Hre.
      cbn in NE. apply String.eqb_neq in NE. by rewrite NE.
    + destruct Hlast as [Hlast|?]; [|done].
      cbn [fmap list_fmap app] in Hre. cbn [app String.append].
      assert (reencode lst = lst) as ->.
      { rewrite Forall_app, Forall_singleton in Hall. by destruct Hall as [_ [_ ?]]. }
      apply String.eqb_neq in Hlast. rewrite Hlast. cbn [negb orb].
      injection Hre as Hi Hre. rewrite Hi.
      apply app_inj_tail in Hre as [Hre _]. by rewrite Hre.
Qed.

End FramingFacts.

(** ** Building messages *)

Module MessageFacts.

Lemma hasHeader_insert_eq key v (h : gmap string string) :
  hasHeader key (Some (<[key := v]> h)) = true.
Proof. unfold hasHeader. apply bool_decide_eq_true. by rewrite lookup_insert_eq. Qed.

Lemma hasHeader_insert_ne key k v (h : gmap string string) :
  k ≠ key →
  hasHeader key (Some h) = true → hasHeader key (Some (<[k := v]> h)) = true.
Proof.
  unfold hasHeader. intros Hne H. apply bool_decide_eq_true.
  apply bool_decide_eq_true in H. by rewrite lookup_insert_ne.
Qed.

Lemma generateMessageID_nonempty clock Format t :
  generateMessageID clock Format t ≠ "".
Proof.
  unfold generateMessageID.
  by destruct (Format false "20060102150405" (clock t)).
Qed.

(** [Build] on a builder that has no ID and no timestamp yet: the ID is
    generated from the readings [t .. t+8], the timestamp is the reading
    [t+9]. *)
Lemma Build_fresh clock Format t mb (h : gmap string string) :
  ID (message mb) = "" →
  Headers (message mb) = Some h →
  h !! "timestamp" = None →
  Build clock Format t mb =
  mkMessage (generateMessageID clock Format t) (Type_ (message mb))
            (Data (message mb))
            (Some (<["timestamp" :=
                       Format true "2006-01-02T15:04:05Z07:00" (clock (t + 9))]> h)).
Proof.
  intros Hid Hh Hts. unfold Build. rewrite Hid. cbn [String.eqb].
  unfold WithID, WithTimestamp, WithHeader. cbn [message ID Type_ Data Headers].
  rewrite Hh. unfold hasHeader.
  rewrite bool_decide_eq_false_2; [done|].
  rewrite Hts. by intros [? ?].
Qed.

End MessageFacts.

(** ** The hub *)

Module HubFacts.
Import Hub.

Lemma Conn_Close_nil now c : (Conn.Close now c).1 = Nil.
Proof.
  destruct c as [c|c|c]; cbn.
  - unfold SSE.Close. by destruct (sse_closed c).
  - unfold WS.Close. by destruct (ws_closed c).
  - done.
Qed.

Lemma Conn_Close_closed now c : Conn.IsClosed (Conn.Close now c).2 = true.
Proof.
  destruct c as [c|c|c]; cbn.
  - unfold SSE.Close. by destruct (sse_closed c) eqn:E.
  - unfold WS.Close. by destruct (ws_closed c) eqn:E.
  - done.
Qed.

(** [closeEntry] closes the object of the entry and touches nothing else. *)
Lemma closeEntry_eq now h e :
  closeEntry now h e =
  withStore (alter (λ c, (Conn.Close now c).2) e.2 (store h)) h.
Proof.
  unfold closeEntry. destruct (store h !! e.2) as [c|] eqn:E.
  - pose proof (Conn_Close_nil now c) as Hr.
    destruct (Conn.Close now c) as [r c'] eqn:Ec. cbn in Hr. subst r.
    f_equal. apply map_eq. intros l.
    destruct (decide (l = e.2)) as [->|Hne].
    + by rewrite lookup_insert_eq, lookup_alter_eq, E; cbn; rewrite Ec.
    + by rewrite lookup_insert_ne, lookup_alter_ne.
  - destruct h. unfold withStore. cbn in *. f_equal.
    apply map_eq. intros l. destruct (decide (l = e.2)) as [->|Hne].
    + by rewrite lookup_alter_eq, E.
    + by rewrite lookup_alter_ne.
Qed.

Lemma closeAll_eq now es h :
  fold_left (closeEntry now) es h =
  withStore
    (fold_left (λ σ e, alter (λ c, (Conn.Close now c).2) e.2 σ) es (store h)) h.
Proof.
  revert h. induction es as [|e es IH]; intros h; cbn [fold_left].
  - by destruct h.
  - by rewrite IH, closeEntry_eq.
Qed.

Lemma alter_close_keeps now (σ : gmap loc Connection) (l l' : loc) :
  closedIn σ l → closedIn (alter (λ c, (Conn.Close now c).2) l' σ) l.
Proof.
  intros (c & Hc & Hclosed). destruct (decide (l = l')) as [->|Hne].
  - exists (Conn.Close now c).2. rewrite lookup_alter_eq, Hc. split; [done|].
    apply Conn_Close_closed.
  - exists c. by rewrite lookup_alter_ne.
Qed.

Lemma alter_close_closes now (σ : gmap loc Connection) (l : loc) :
  is_Some (σ !! l) → closedIn (alter (λ c, (Conn.Close now c).2) l σ) l.
Proof.
  intros [c Hc]. exists (Conn.Close now c).2.
  rewrite lookup_alter_eq, Hc. split; [done|]. apply Conn_Close_closed.
Qed.

Lemma alter_close_alloc now (σ : gmap loc Connection) (l l' : loc) :
  is_Some (σ !! l) → is_Some (alter (λ c, (Conn.Close now c).2) l' σ !! l).
Proof.
  intros [c Hc]. destruct (decide (l = l')) as [->|Hne].
  - rewrite lookup_alter_eq, Hc. by eexists.
  - rewrite lookup_alter_ne by done. by eexists.
Qed.

(** After the loop of [Stop] every object an entry refers to is closed,
    and no object that was closed is open again. *)
Lemma closeAll_closed now (es : list (string * loc)) :
  ∀ σ,
    let σ' := fold_left (λ σ e, alter (λ c, (Conn.Close now c).2) e.2 σ) es σ in
    (∀ l, is_Some (σ !! l) → is_Some (σ' !! l))
    ∧ (∀ l, closedIn σ l → closedIn σ' l)
    ∧ (∀ e, e ∈ es → is_Some (σ !! e.2) → closedIn σ' e.2).
Proof.
  induction es as [|e es IH]; intros σ; cbn [fold_left].
  - split; [done|]. split; [done|]. intros e He. by apply elem_of_nil in He.
  - destruct (IH (alter (λ c, (Conn.Close now c).2) e.2 σ)) as (Ha & Hk & Hc).
    split; [|split].
    + intros l Hl. by apply Ha, alter_close_alloc.
    + intros l Hl. by apply Hk, alter_close_keeps.
    + intros e' [->|He']%elem_of_cons Hl.
      * by apply Hk, alter_close_closes.
      * by apply Hc; [|apply alter_close_alloc].
Qed.

(** The registry after the deletions of a sweep. *)
Lemma sweep_connections (ids : list string) h :
  let h' :=
    fold_left
      (λ h id,
         withLog LevelInfo ("Cleaned up closed connection " +:+ id)
           (withConnections (delete id (connections h)) h))
      ids h in
  store h' = store h
  ∧ ∀ id, connections h' !! id =
          if decide (id ∈ ids) then None else connections h !! id.
Proof.
  revert h. induction ids as [|i ids IH]; intros h; cbn [fold_left].
  - split; [done|]. intros id. case_decide as H; [|done].
    by apply elem_of_nil in H.
  - destruct (IH (withLog LevelInfo ("Cleaned up closed connection " +:+ i)
                    (withConnections (delete i (connections h)) h)))
      as [Hs Hc].
    split; [by rewrite Hs|]. intros id. rewrite Hc. cbn.
    destruct (decide (id = i)) as [->|Hne].
    + rewrite lookup_delete_eq. rewrite (decide_True (P := i ∈ i :: ids)).
      * by case_decide.
      * by left.
    + rewrite lookup_delete_ne by done.
      repeat case_decide; try done.
      * exfalso. by apply H0; right.
      * by apply elem_of_cons in H0 as [?|?].
Qed.

Lemma sweep_ids h id :
  id ∈ (filter (λ e, closedAt h e.2 = true) (map_to_list (connections h))).*1
  ↔ ∃ l, connections h !! id = Some l ∧ closedAt h l = true.
Proof.
  rewrite list_elem_of_fmap. split.
  - intros ([id' l] & -> & [Hcl Hin%elem_of_map_to_list]%list_elem_of_filter).
    by exists l.
  - intros (l & Hl & Hcl). exists (id, l). split; [done|].
    apply list_elem_of_filter. split; [done|]. by apply elem_of_map_to_list.
Qed.

Lemma cleanup_lookup h :
  store (cleanupClosedConnections h) = store h
  ∧ ∀ id, connections (cleanupClosedConnections h) !! id =
          match connections h !! id with
          | Some l => if closedAt h l then None else Some l
          | None => None
          end.
Proof.
  destruct (sweep_connections
    (filter (λ e, closedAt h e.2 = true) (map_to_list (connections h))).*1 h)
    as [Hs Hc].
  split; [exact Hs|]. intros id. unfold cleanupClosedConnections. rewrite Hc.
  pose proof (sweep_ids h id) as Hids.
  case_decide as Hin.
  - apply Hids in Hin as (l & -> & ->). done.
  - destruct (connections h !! id) as [l|] eqn:El; [|done].
    destruct (closedAt h l) eqn:Ecl; [|done].
    exfalso. apply Hin, Hids. by exists l.
Qed.

End HubFacts.

(** ** The tests of the repository, replayed *)

Module Replay.

(** TestHub_StartStop *)
Example StartStop :
  let '(err1, h1) := Hub.Start None (Hub.New Fixtures.objects) in
  let '(err2, h2) := Hub.Stop 0 h1 in
  err1 = Nil ∧ Hub.IsRunning h1 = true ∧ err2 = Nil ∧ Hub.IsRunning h2 = false.
Proof. done. Qed.

(** TestHub_ConnectionManagement *)
Example ConnectionManagement :
  let h := (Hub.Start None (Hub.New Fixtures.objects)).2 in
  (Hub.ConnectionCount h = 0)
  ∧ ∃ h1 h2 h3 h4,
      Hub.RegisterConnection PickComm 1%positive h = Some (Nil, h1)
      ∧ Hub.run1 0 Hub.EvRegister h1 = Some (true, h2)
      ∧ Hub.ConnectionCount h2 = 1
      ∧ Hub.GetConnection "test-conn-1" h2 = Some 1%positive
      ∧ Hub.UnregisterConnection PickComm "test-conn-1" h2 = Some (Nil, h3)
      ∧ Hub.run1 0 Hub.EvUnregister h3 = Some (true, h4)
      ∧ Hub.ConnectionCount h4 = 0
      ∧ Hub.closedAt h4 1%positive = true.
Proof.
  split; [done|]. do 4 eexists.
  split; [reflexivity|]. split; [reflexivity|]. split; [by vm_compute|].
  split; [by vm_compute|]. split; [reflexivity|]. split; [reflexivity|].
  split; by vm_compute.
Qed.

Example splitLines_two :
  splitLines ("line1" +:+ nl +:+ "line2") = ["line1"; "line2"].
Proof. reflexivity. Qed.

Example splitLines_crlf :
  splitLines ("a" +:+ cr +:+ nl +:+ "b") = ["a"; ""; "b"].
Proof. reflexivity. Qed.

Example splitLines_trailing : splitLines ("a" +:+ nl) = ["a"].
Proof. reflexivity. Qed.

(** A byte that starts no encoding is read as U+FFFD. *)
Example splitLines_bad_byte :
  splitLines (String (ascii_of_N 255) "") = [Utf8.RuneError].
Proof. reflexivity. Qed.

(** The two bytes of U+00E9 are read as one rune and kept. *)
Example splitLines_two_bytes :
  let e := String (ascii_of_N 195) (String (ascii_of_N 169) "") in
  splitLines ("caf" +:+ e +:+ nl +:+ "x") = ["caf" +:+ e; "x"].
Proof. reflexivity. Qed.

End Replay.

(** * The claims *)

Import Utf8Facts.

(** C2.  The frame of the message with id "m1", type "notice" and string
    payload "line1\nline2" is exactly
    "id: m1\nevent: notice\ndata: line1\ndata: line2\n\n", with no error.
    For every message with a non-empty id, a non-empty type and a string
    payload the frame is [id: <id>\n], then [event: <type>\n], then one
    [data: <line>\n] for each line [splitLines] finds in the payload, then
    a blank line; a payload made of well-formed lines joined by "\n" has
    exactly those lines, and the empty payload gives the single field
    [data: \n]. *)
Theorem formatSSEMessage_framing (json_encode : value → string) :
  formatSSEMessage json_encode
    (mkMessage "m1" "notice" (VString ("line1" +:+ nl +:+ "line2")) None) =
    Val ("id: m1" +:+ nl +:+ "event: notice" +:+ nl +:+
         "data: line1" +:+ nl +:+ "data: line2" +:+ nl +:+ nl)
  ∧ (∀ id ty payload hdrs, id ≠ "" → ty ≠ "" →
       formatSSEMessage json_encode (mkMessage id ty (VString payload) hdrs) =
       Val ("id: " +:+ id +:+ nl +:+ "event: " +:+ ty +:+ nl +:+
            fold_right String.append ""
              ((λ line, "data: " +:+ line +:+ nl) <$> splitLines payload)
            +:+ nl))
  ∧ (∀ init lst,
       Forall (λ l, terminators l = 0 ∧ Utf8.reencode l = l) (init ++ [lst]) →
       lst ≠ "" ∨ init = [] →
       splitLines (join nl (init ++ [lst])) = init ++ [lst])
  ∧ (∀ id ty hdrs, id ≠ "" → ty ≠ "" →
       formatSSEMessage json_encode (mkMessage id ty (VString "") hdrs) =
       Val ("id: " +:+ id +:+ nl +:+ "event: " +:+ ty +:+ nl +:+
            "data: " +:+ nl +:+ nl)).
Proof.
  split; [done|]. split; [|split].
  - intros. by apply FramingFacts.formatSSEMessage_string.
  - apply FramingFacts.splitLines_join.
  - intros id ty hdrs Hid Hty.
    by rewrite FramingFacts.formatSSEMessage_string.
Qed.

Lemma formatSSEMessage_framing_witness :
  formatSSEMessage (λ _, "null") (mkMessage "7" "tick" (VString "up") None) =
    Val ("id: 7" +:+ nl +:+ "event: tick" +:+ nl +:+ "data: up" +:+ nl +:+ nl)
  ∧ splitLines (join nl (["a"; ""] ++ ["b"])) = ["a"; ""] ++ ["b"].
Proof.
  destruct (formatSSEMessage_framing (λ _, "null")) as (_ & Hshape & Hjoin & _).
  split.
  - apply (Hshape "7" "tick" "up" None); done.
  - apply (Hjoin ["a"; ""] "b"); [|by left].
    repeat constructor.
Defined.



(** C4.  [Validate] returns an error exactly when the message is nil, or
    its ID is empty, or its Type is empty, or its Data is not nil and
    json.Marshal fails on it; in every other case it returns nil. *)
Theorem Validate_rejects (json_encode : value → string) (m : option Message) :
  let rejected :=
    m = None ∨
    ∃ msg, m = Some msg ∧
      (ID msg = "" ∨ Type_ msg = "" ∨
       (Data msg ≠ VNil ∧ ∃ e, json_Marshal json_encode (Data msg) = Fail e)) in
  (isError (Validate json_encode m) = true ↔ rejected)
  ∧ (¬ rejected → Validate json_encode m = Nil).
Proof.
  cbn zeta.
  destruct m as [msg|]; cbn [Validate]; [|split; [split; [by left|done]|tauto]].
  destruct (String.eqb_spec (ID msg) "") as [Hid|Hid].
  { split; [split; [|done]|]; [right; exists msg; tauto|].
    intros H. exfalso. apply H. right. exists msg. tauto. }
  destruct (String.eqb_spec (Type_ msg) "") as [Hty|Hty].
  { split; [split; [|done]|]; [right; exists msg; tauto|].
    intros H. exfalso. apply H. right. exists msg. tauto. }
  assert (∀ r,
    (match json_Marshal json_encode (Data msg) with
     | Fail err => Error ("message data must be JSON serializable: " +:+ err)
     | Val _ => Nil
     end = r) →
    Data msg ≠ VNil →
    (isError r = true ↔
       Some msg = None ∨ ∃ msg0, Some msg = Some msg0 ∧
         (ID msg0 = "" ∨ Type_ msg0 = "" ∨
          (Data msg0 ≠ VNil ∧ ∃ e, json_Marshal json_encode (Data msg0) = Fail e)))
    ∧ (¬ (Some msg = None ∨ ∃ msg0, Some msg = Some msg0 ∧
         (ID msg0 = "" ∨ Type_ msg0 = "" ∨
          (Data msg0 ≠ VNil ∧ ∃ e, json_Marshal json_encode (Data msg0) = Fail e)))
       → r = Nil)) as Hdata.
  { intros r <- Hd.
    destruct (json_Marshal json_encode (Data msg)) as [s|e] eqn:E; cbn.
    - split; [split; [done|]|done].
      intros [?|(msg0 & [= <-] & [?|[?|[_ [e He]]]])]; congruence.
    - split; [split; [|done]|].
      + intros _. right. exists msg. split; [done|]. right. right. eauto.
      + intros H. exfalso. apply H. right. exists msg. split; [done|].
        right. right. eauto. }
  destruct (Data msg) eqn:Ed; try (apply Hdata; [done|congruence]).
  split; [split; [done|]|done].
  intros [?|(msg0 & [= <-] & [?|[?|[Hn _]]])]; congruence.
Qed.

Lemma Validate_rejects_witness :
  Validate (λ _, "null") (Some (mkMessage "m1" "notice" (VString "x") None)) = Nil.
Proof.
  apply (Validate_rejects (λ _, "null")
           (Some (mkMessage "m1" "notice" (VString "x") None))).
  intros [?|(msg & [= <-] & [?|[?|[_ [e He]]]])]; done.
Defined.

(** C10.  Whatever their string arguments and the readings of the clock,
    the messages [NotificationMessage] and [AlertMessage] build pass
    [Validate]: the ID they are given is not empty, the type is not empty
    and the data marshals; and their headers hold both "priority" and
    "timestamp". *)
Theorem factories_valid (json_encode : value → string) (clock : nat → N)
    (Format : bool → string → N → string) (t : nat) (a b : string) :
  let good (m : Message) :=
    Validate json_encode (Some m) = Nil
    ∧ ID m ≠ "" ∧ Type_ m ≠ ""
    ∧ (∃ s, json_Marshal json_encode (Data m) = Val s)
    ∧ hasHeader "priority" (Headers m) = true
    ∧ hasHeader "timestamp" (Headers m) = true in
  good (NotificationMessage clock Format t a b)
  ∧ good (AlertMessage clock Format t a b).
Proof.
  cbn zeta. split.
  - unfold NotificationMessage, WithPriority.
    rewrite MessageFacts.Build_fresh with (h := <["priority" := PriorityNormal]> ∅); try done.
    cbn [ID Type_ Data Headers message WithHeader WithData WithType NewMessageBuilder].
    pose proof (MessageFacts.generateMessageID_nonempty clock Format t) as Hid.
    split; [|split; [done|split; [done|split; [by eexists|split]]]].
    + unfold Validate. cbn [ID Type_ Data].
      apply String.eqb_neq in Hid. by rewrite Hid.
    + apply MessageFacts.hasHeader_insert_ne; [done|].
      apply MessageFacts.hasHeader_insert_eq.
    + apply MessageFacts.hasHeader_insert_eq.
  - unfold AlertMessage, WithPriority.
    rewrite MessageFacts.Build_fresh with (h := <["priority" := PriorityHigh]> ∅); try done.
    cbn [ID Type_ Data Headers message WithHeader WithData WithType NewMessageBuilder].
    pose proof (MessageFacts.generateMessageID_nonempty clock Format t) as Hid.
    split; [|split; [done|split; [done|split; [by eexists|split]]]].
    + unfold Validate. cbn [ID Type_ Data].
      apply String.eqb_neq in Hid. by rewrite Hid.
    + apply MessageFacts.hasHeader_insert_ne; [done|].
      apply MessageFacts.hasHeader_insert_eq.
    + apply MessageFacts.hasHeader_insert_eq.
Qed.

(** C5.  On a connection whose closed flag is set, [Send] returns an
    error whatever the context, the message, the clock and the scheduling,
    and leaves the connection as it was: the response writer of an
    SSEConnection, the socket and the send queue of a WebSocketConnection
    are not touched. *)
Theorem Send_closed :
  (∀ json_encode now pick ctx message c,
     SSE.IsClosed c = true →
     SSE.Send json_encode now pick ctx message c =
       Some (Error "client is closed", c))
  ∧ (∀ pick ctx message c,
       WS.IsClosed c = true →
       WS.Send pick ctx message c =
         Some (Error "WebSocket connection is closed", c))
  ∧ (∀ json_encode now pick ctx message c,
       (∃ s, c = ConnSSE s) ∨ (∃ w, c = ConnWS w) →
       Conn.IsClosed c = true →
       ∃ err, Conn.Send json_encode now pick ctx message c =
                Some (Error err, c)).
Proof.
  split; [|split].
  - intros json_encode now pick ctx message c Hc. unfold SSE.Send. by rewrite Hc.
  - intros pick ctx message c Hc. unfold WS.Send. by rewrite Hc.
  - intros json_encode now pick ctx message c [[s ->]|[w ->]] Hc;
      cbn in Hc; cbn [Conn.Send].
    + unfold SSE.Send. rewrite Hc. by eexists.
    + unfold WS.Send. rewrite Hc. by eexists.
Qed.

Lemma Send_closed_witness :
  let w := mkWriter ∅ "id: 1" 1 true None in
  let c := mkSSE "c1" w true true [] 5 [] in
  let k := mkWS "c2" (mkSocket [] true None None) true true [] [] true 5 10 60 in
  SSE.Send (λ _, "null") 9 PickComm None
      (Some (mkMessage "m" "t" (VString "x") None)) c =
    Some (Error "client is closed", c)
  ∧ WS.Send PickComm None (Some (mkMessage "m" "t" (VString "x") None)) k =
    Some (Error "WebSocket connection is closed", k)
  ∧ ∃ err, Conn.Send (λ _, "null") 9 PickTimer (Some "context canceled") None
             (ConnWS k) = Some (Error err, ConnWS k).
Proof.
  cbn zeta. destruct Send_closed as (H1 & H2 & H3).
  split; [|split].
  - apply H1. reflexivity.
  - apply H2. reflexivity.
  - apply H3; [right; by eexists|reflexivity].
Defined.

(** C6.  For both kinds of connection [Close] returns nil and [IsClosed]
    is true right after it; [Close] on a connection that is already
    closed returns nil and leaves the whole connection (flag, context,
    log, socket or writer, send queue) as it was, so a second [Close]
    changes nothing. *)
Theorem Close_idempotent :
  (∀ c, (SSE.Close c).1 = Nil ∧ SSE.IsClosed (SSE.Close c).2 = true)
  ∧ (∀ c, SSE.IsClosed c = true → SSE.Close c = (Nil, c))
  ∧ (∀ c, SSE.Close (SSE.Close c).2 = (Nil, (SSE.Close c).2))
  ∧ (∀ now c, (WS.Close now c).1 = Nil ∧ WS.IsClosed (WS.Close now c).2 = true)
  ∧ (∀ now c, WS.IsClosed c = true → WS.Close now c = (Nil, c))
  ∧ (∀ now now' c,
       WS.Close now' (WS.Close now c).2 = (Nil, (WS.Close now c).2)).
Proof.
  assert (∀ c, SSE.IsClosed c = true → SSE.Close c = (Nil, c)) as Hsse.
  { intros c Hc. unfold SSE.Close. unfold SSE.IsClosed in Hc. by rewrite Hc. }
  assert (∀ c, (SSE.Close c).1 = Nil ∧ SSE.IsClosed (SSE.Close c).2 = true)
    as Hsse1.
  { intros c. unfold SSE.Close. by destruct (sse_closed c) eqn:E. }
  assert (∀ now c, WS.IsClosed c = true → WS.Close now c = (Nil, c)) as Hws.
  { intros now c Hc. unfold WS.Close. unfold WS.IsClosed in Hc. by rewrite Hc. }
  assert (∀ now c, (WS.Close now c).1 = Nil ∧ WS.IsClosed (WS.Close now c).2 = true)
    as Hws1.
  { intros now c. unfold WS.Close. by destruct (ws_closed c) eqn:E. }
  split; [exact Hsse1|]. split; [exact Hsse|]. split.
  { intros c. apply Hsse, Hsse1. }
  split; [exact Hws1|]. split; [exact Hws|].
  intros now now' c. apply Hws, Hws1.
Qed.

Lemma Close_idempotent_witness :
  let c := mkSSE "c1" (mkWriter ∅ "" 0 true None) true true [] 5 [] in
  let k := mkWS "c2" (mkSocket [] true None None) true true [] [] true 5 10 60 in
  SSE.Close c = (Nil, c) ∧ WS.Close 7 k = (Nil, k).
Proof.
  cbn zeta. destruct Close_idempotent as (_ & H1 & _ & _ & H2 & _).
  split; [apply H1|apply H2]; reflexivity.
Defined.

(** The loop of [Stop] leaves alone every object no entry refers to. *)
Lemma closeAll_other now (es : list (string * loc)) (l : loc) :
  ∀ σ : gmap loc Connection,
    (∀ e, e ∈ es → e.2 ≠ l) →
    fold_left (λ σ e, alter (λ c, (Conn.Close now c).2) e.2 σ) es σ !! l = σ !! l.
Proof.
  induction es as [|e es IH]; intros σ Hes; [done|].
  cbn [fold_left]. rewrite IH.
  - apply lookup_alter_ne. apply Hes. left.
  - intros e' He'. apply Hes. by right.
Qed.

(** [Stop] taken as one step, on a running hub: it returns nil and
    leaves the hub not running, its registry empty and every connection
    the registry referred to closed. *)
Lemma Stop_step (now : N) (h : Hub) :
  running h = true →
  let h' := (Hub.Stop now h).2 in
  (Hub.Stop now h).1 = Nil
  ∧ Hub.IsRunning h' = false
  ∧ connections h' = ∅
  ∧ Hub.ConnectionCount h' = 0
  ∧ (∀ id, Hub.GetConnection id h' = None)
  ∧ (∀ id l c,
       connections h !! id = Some l → store h !! l = Some c →
       ∃ c', store h' !! l = Some c' ∧ Conn.IsClosed c' = true).
Proof.
  intros Hrun. unfold Hub.Stop. rewrite Hrun. cbn [negb fst snd].
  rewrite HubFacts.closeAll_eq.
  cbn [Hub.withLog Hub.withConnections Hub.withStore Hub.IsRunning
       Hub.ConnectionCount Hub.GetConnection
       store connections running logger].
  split; [done|]. split; [done|]. split; [done|].
  split; [apply map_size_empty|]. split; [apply lookup_empty|].
  intros id l c Hid Hl.
  pose proof (HubFacts.closeAll_closed now (map_to_list (connections h)) (store h))
    as (_ & _ & Hc).
  apply (Hc (id, l)).
  - by apply elem_of_map_to_list.
  - by eexists.
Qed.

(** C3.  [Stop] does not wait for the loop and does not empty the
    register channel.  On a running hub with a registration in that
    channel, for an open connection the registry does not hold yet, [Stop]
    returns nil, leaves the hub not running with an empty registry and
    every registered connection closed, and leaves the registration where
    it is.  The select of the loop, for which the receive from the channel
    is as ready as the Done of the context, can then receive it: after
    that iteration the hub is not running, [ConnectionCount] is 1,
    [GetConnection] finds the connection and the connection is open; and
    the iteration that then takes the Done case ends the loop with the
    registry as it is. *)
Theorem Stop_misses_queued (now now' : N) (h : Hub) (l : loc) (rest : list loc)
    (c : Connection) :
  running h = true → register h = l :: rest →
  store h !! l = Some c → Conn.IsClosed c = false →
  (∀ id, connections h !! id ≠ Some l) →
  let h1 := (Hub.Stop now h).2 in
  (Hub.Stop now h).1 = Nil
  ∧ Hub.IsRunning h1 = false
  ∧ Hub.ConnectionCount h1 = 0
  ∧ (∀ id, Hub.GetConnection id h1 = None)
  ∧ (∀ id l0 c0,
       connections h !! id = Some l0 → store h !! l0 = Some c0 →
       Hub.closedAt h1 l0 = true)
  ∧ register h1 = l :: rest
  ∧ ∃ h2,
      Hub.run1 now' Hub.EvRegister h1 = Some (true, h2)
      ∧ Hub.IsRunning h2 = false
      ∧ Hub.ConnectionCount h2 = 1
      ∧ Hub.GetConnection (Conn.ID c) h2 = Some l
      ∧ Hub.closedAt h2 l = false
      ∧ ∃ h3,
          Hub.run1 now' Hub.EvDone h2 = Some (false, h3)
          ∧ connections h3 = connections h2 ∧ store h3 = store h2.
Proof.
  intros Hrun Hreg Hl Hopen Hfresh h1.
  destruct (Stop_step now h Hrun) as (Hnil & Hnr & _ & Hcount & Hget & Hclosed).
  assert (register h1 = l :: rest ∧ store h1 !! l = Some c
          ∧ connections h1 = ∅ ∧ running h1 = false ∧ ctxDone h1 = true)
    as (Hreg1 & Hl1 & Hconn1 & Hrun1 & Hdone1).
  { subst h1. unfold Hub.Stop. rewrite Hrun. cbn [negb fst snd].
    rewrite HubFacts.closeAll_eq.
    cbn [Hub.withLog Hub.withConnections Hub.withStore
         store connections running logger register ctxDone].
    split; [done|]. split; [|done].
    rewrite closeAll_other; [done|].
    intros [id l0] He%elem_of_map_to_list. cbn. intros ->. by apply (Hfresh id). }
  split; [done|]. split; [done|]. split; [done|]. split; [done|].
  split.
  { intros id l0 c0 Hid Hl0.
    destruct (Hclosed id l0 c0 Hid Hl0) as (c' & Hc' & Hcl).
    unfold Hub.closedAt. subst h1. by rewrite Hc'. }
  split; [done|].
  unfold Hub.run1. rewrite Hreg1.
  unfold Hub.handleRegister.
  cbn [store connections running logger register unregister broadcast ctxDone
       goroutines]. rewrite Hl1.
  eexists. split; [reflexivity|].
  unfold Hub.IsRunning, Hub.ConnectionCount, Hub.GetConnection, Hub.closedAt,
    Hub.go, Hub.withLog, Hub.withConnections.
  cbn [store connections running logger register unregister broadcast ctxDone
       goroutines].
  rewrite Hconn1, Hl1, Hdone1.
  split; [done|].
  split.
  { rewrite map_size_insert_None by apply lookup_empty. by rewrite map_size_empty. }
  split; [apply lookup_insert_eq|]. split; [done|].
  by eexists.
Qed.

Lemma Stop_misses_queued_witness :
  let h := Fixtures.queued in
  Hub.IsRunning h = true
  ∧ (Hub.Stop 5 h).1 = Nil
  ∧ ∃ h2,
      Hub.run1 6 Hub.EvRegister (Hub.Stop 5 h).2 = Some (true, h2)
      ∧ Hub.IsRunning h2 = false
      ∧ Hub.ConnectionCount h2 = 1
      ∧ Hub.GetConnection "test-conn-1" h2 = Some 1%positive
      ∧ Hub.closedAt h2 1%positive = false.
Proof.
  intros h. split; [reflexivity|].
  assert (∀ id, connections h !! id ≠ Some 1%positive) as Hfresh.
  { intros id. change (connections h) with (∅ : gmap string loc).
    by rewrite lookup_empty. }
  destruct (Stop_misses_queued 5 6 h 1%positive [] (Fixtures.mock "test-conn-1")
              eq_refl eq_refl eq_refl eq_refl Hfresh)
    as (Hnil & _ & _ & _ & _ & _ & h2 & Hstep & Hnr & Hcount & Hget & Hopen & _).
  split; [exact Hnil|].
  exists h2. split; [exact Hstep|]. split; [exact Hnr|]. split; [exact Hcount|].
  split; [exact Hget|exact Hopen].
Defined.

(** C8.  One run of the cleanup sweep leaves the connection objects as
    they are, leaves in the registry no entry whose connection reports
    itself closed, keeps every entry whose connection reports itself
    open, under the same id and referring to the same object, and adds no
    entry. *)
Theorem cleanup_sweep (h : Hub) :
  let h' := Hub.cleanupClosedConnections h in
  store h' = store h
  ∧ (∀ id l, connections h' !! id = Some l → Hub.closedAt h' l = false)
  ∧ (∀ id l, connections h !! id = Some l → Hub.closedAt h l = false →
             connections h' !! id = Some l)
  ∧ (∀ id l, connections h' !! id = Some l → connections h !! id = Some l).
Proof.
  cbn zeta. destruct (HubFacts.cleanup_lookup h) as [Hs Hc].
  split; [exact Hs|]. split; [|split].
  - intros id l. rewrite Hc. unfold Hub.closedAt at 2. rewrite Hs.
    fold (Hub.closedAt h l).
    destruct (connections h !! id) as [l'|]; [|done].
    destruct (Hub.closedAt h l') eqn:E; [done|]. by intros [= <-].
  - intros id l Hl Hopen. by rewrite Hc, Hl, Hopen.
  - intros id l. rewrite Hc.
    destruct (connections h !! id) as [l'|]; [|done].
    by destruct (Hub.closedAt h l').
Qed.

Lemma cleanup_sweep_witness :
  let gone := ConnSSE (mkSSE "a" (mkWriter ∅ "" 0 true None) true true [] 3 []) in
  let live := ConnWS (mkWS "b" (mkSocket [] false None None) false false [] []
                           false 3 10 60) in
  let h := mkHub (<[1%positive := gone]> (<[2%positive := live]> ∅))
                 (<["a" := 1%positive]> (<["b" := 2%positive]> ∅))
                 true [] [] [] [] false [GoRun] in
  connections (Hub.cleanupClosedConnections h) !! "b" = Some 2%positive.
Proof.
  intros gone live h.
  destruct (cleanup_sweep h) as (_ & _ & Hkeep & _).
  apply Hkeep; reflexivity.
Defined.

(** C7.  Unregistering an id the registry does not hold.  The unregister
    handling of the event loop leaves the whole hub as it was: the
    registry, every connection object and the log; so it closes no
    connection, and the iteration of the loop that receives such an id
    only takes it from the channel.  [UnregisterConnection] never looks
    the id up, so an unknown id is no error: on a running hub it returns
    nil, having queued the id, unless it ends by the shutdown or timeout
    contract of the unregister channel, which are its only two errors,
    "hub is shutting down" only once the hub context is cancelled and the
    timeout only with the channel full and that context live.  With room
    in the channel and a live context it returns nil, and whatever it
    returns is what it returns for any other id, registered or not. *)
Theorem unregister_unknown (id : string) (h : Hub) :
  connections h !! id = None →
  (∀ now, Hub.handleUnregister now id h = h)
  ∧ (∀ now rest,
       unregister h = id :: rest →
       ∃ h', Hub.run1 now Hub.EvUnregister h = Some (true, h')
             ∧ unregister h' = rest
             ∧ connections h' = connections h ∧ store h' = store h
             ∧ logger h' = logger h)
  ∧ (running h = true →
     ∀ pick r h',
       Hub.UnregisterConnection pick id h = Some (r, h') →
       (r = Nil ∧ pick = PickComm
        ∧ length (unregister h) < Hub.unregisterCap
        ∧ unregister h' = unregister h ++ [id]
        ∧ connections h' = connections h ∧ store h' = store h)
       ∨ (r = Error "hub is shutting down" ∧ pick = PickOwn
          ∧ ctxDone h = true ∧ h' = h)
       ∨ (r = Error "timeout unregistering connection" ∧ pick = PickTimer
          ∧ ctxDone h = false
          ∧ Hub.unregisterCap ≤ length (unregister h) ∧ h' = h))
  ∧ (running h = true → length (unregister h) < Hub.unregisterCap →
     (∃ h', Hub.UnregisterConnection PickComm id h = Some (Nil, h'))
     ∧ (ctxDone h = false →
        ∀ pick r h',
          Hub.UnregisterConnection pick id h = Some (r, h') → r = Nil))
  ∧ (∀ pick id',
       fst <$> Hub.UnregisterConnection pick id h =
       fst <$> Hub.UnregisterConnection pick id' h).
Proof.
  intros Hid. split; [|split; [|split; [|split]]].
  - intros now. unfold Hub.handleUnregister. by rewrite Hid.
  - intros now rest Hq. unfold Hub.run1. rewrite Hq.
    eexists. split; [reflexivity|].
    unfold Hub.handleUnregister.
    cbn [store connections running logger register unregister broadcast
         ctxDone goroutines].
    by rewrite Hid.
  - intros Hrun pick r h'. unfold Hub.UnregisterConnection, Hub.IsRunning.
    rewrite Hrun. cbn [negb].
    destruct (Nat.ltb_spec (length (unregister h)) Hub.unregisterCap)
      as [Hroom|Hfull]; destruct pick; cbn [orb]; try done.
    + intros [= <- <-]. left. done.
    + destruct (ctxDone h) eqn:Hd; [|done]. intros [= <- <-]. right. left. done.
    + destruct (ctxDone h) eqn:Hd; [|done]. intros [= <- <-]. right. left. done.
    + destruct (ctxDone h) eqn:Hd; [done|]. intros [= <- <-]. right. right. done.
  - intros Hrun Hroom. unfold Hub.UnregisterConnection, Hub.IsRunning.
    rewrite Hrun. cbn [negb]. apply Nat.ltb_lt in Hroom. rewrite Hroom.
    split; [by eexists|].
    intros Hlive pick r h'. rewrite Hlive. destruct pick; cbn; congruence.
  - intros pick id'. unfold Hub.UnregisterConnection, Hub.IsRunning.
    destruct (running h); cbn [negb]; [|done].
    destruct pick; repeat case_match; done.
Qed.

Lemma unregister_unknown_witness :
  let h := mkHub ∅ (<["b" := 2%positive]> ∅) true [] [] ["ghost"] [] false [GoRun] in
  Hub.handleUnregister 5 "ghost" h = h
  ∧ (∃ h', Hub.run1 5 Hub.EvUnregister h = Some (true, h')
           ∧ unregister h' = []
           ∧ connections h' = connections h ∧ store h' = store h
           ∧ logger h' = logger h)
  ∧ (∃ h', Hub.UnregisterConnection PickComm "ghost" h = Some (Nil, h')).
Proof.
  intros h.
  assert (connections h !! "ghost" = None) as Hid by reflexivity.
  destruct (unregister_unknown "ghost" h Hid) as (H1 & H2 & _ & H4 & _).
  split; [apply H1|]. split; [apply H2; reflexivity|].
  apply H4; [reflexivity|]. cbn. unfold Hub.unregisterCap. lia.
Defined.

(** C1.  The test of the running flag opens three of the five
    operations only.  While the hub is not running, [RegisterConnection],
    [UnregisterConnection] and [Broadcast] return the error "hub is not
    running" whatever their arguments and leave the hub as it was.
    [BroadcastToType] and [SendToConnection] have no such test and do
    their work on a hub that is not running: [BroadcastToType] returns nil
    and starts a send to every registered connection of the type;
    [SendToConnection] returns the error that the connection is not found
    for an id the registry does not hold, and for a registered id it calls
    Send on the connection and returns what that Send returns, nil with
    the message delivered when Send succeeds.  When that Send fails, the
    unregistration that should follow is the one thing the flag stops: the
    unregister channel stays as it was. *)
Theorem not_running_unguarded (h : Hub) :
  Hub.IsRunning h = false →
  (∀ pick conn,
     Hub.RegisterConnection pick conn h = Some (Error "hub is not running", h))
  ∧ (∀ pick connID,
       Hub.UnregisterConnection pick connID h =
         Some (Error "hub is not running", h))
  ∧ (∀ pick ctx message,
       Hub.Broadcast pick ctx message h = Some (Error "hub is not running", h))
  ∧ (∀ ctx connType message,
       let h' := (Hub.BroadcastToType ctx connType message h).2 in
       (Hub.BroadcastToType ctx connType message h).1 = Nil
       ∧ goroutines h' =
           goroutines h
             ++ ((λ l, GoSendTo ctx l message)
                   <$> Hub.GetConnectionsByType connType h)
       ∧ connections h' = connections h ∧ store h' = store h)
  ∧ (∀ json_encode now pick pickU ctx connID message,
       Hub.GetConnection connID h = None →
       Hub.SendToConnection json_encode now pick pickU ctx connID message h =
         Some (Error ("connection " +:+ connID +:+ " not found"), h))
  ∧ (∀ json_encode now pick pickU ctx connID message l c r c',
       Hub.GetConnection connID h = Some l → store h !! l = Some c →
       Conn.Send json_encode now pick ctx message c = Some (r, c') →
       ∃ h',
         Hub.SendToConnection json_encode now pick pickU ctx connID message h =
           Some (r, h')
         ∧ store h' = <[l := c']> (store h)
         ∧ connections h' = connections h
         ∧ unregister h' = unregister h
         ∧ Hub.IsRunning h' = false).
Proof.
  intros Hrun. split; [|split; [|split; [|split; [|split]]]].
  - intros. unfold Hub.RegisterConnection. by rewrite Hrun.
  - intros. unfold Hub.UnregisterConnection. by rewrite Hrun.
  - intros. unfold Hub.Broadcast. by rewrite Hrun.
  - intros ctx connType message. unfold Hub.BroadcastToType.
    cbn [fst snd]. split; [done|].
    generalize (Hub.GetConnectionsByType connType h). intros ls.
    assert (∀ h0,
      let h1 := fold_left (λ h c, Hub.go (GoSendTo ctx c message) h) ls h0 in
      goroutines h1 = goroutines h0 ++ ((λ l, GoSendTo ctx l message) <$> ls)
      ∧ connections h1 = connections h0 ∧ store h1 = store h0) as Hfold.
    { induction ls as [|l ls IH]; intros h0; cbn [fold_left fmap list_fmap].
      - by rewrite app_nil_r.
      - destruct (IH (Hub.go (GoSendTo ctx l message) h0)) as (Hg & Hc & Hs).
        rewrite Hg, Hc, Hs. cbn. by rewrite <- app_assoc. }
    exact (Hfold h).
  - intros json_encode now pick pickU ctx connID message Hid.
    unfold Hub.SendToConnection. by rewrite Hid.
  - intros json_encode now pick pickU ctx connID message l c r c' Hid Hl Hs.
    unfold Hub.SendToConnection. rewrite Hid, Hl. cbn [mbind option_bind].
    rewrite Hs. cbn [mbind option_bind].
    destruct r as [|e|e]; [by eexists| |by eexists].
    unfold Hub.UnregisterConnection, Hub.IsRunning in *.
    cbn [Hub.withLog Hub.withStore running]. rewrite Hrun.
    cbn [negb mbind option_bind]. by eexists.
Qed.

Lemma not_running_unguarded_witness :
  let h := Fixtures.leftover in
  let m := Some (mkMessage "test-msg-1" "test" (VString "Hello World") None) in
  Hub.IsRunning h = false
  ∧ (Hub.BroadcastToType None "mock" m h).1 = Nil
  ∧ goroutines (Hub.BroadcastToType None "mock" m h).2 =
      goroutines h ++ [GoSendTo None 1%positive m]
  ∧ ∃ h',
      Hub.SendToConnection (λ _, "null") 7 PickComm PickComm None
        "test-conn-1" m h = Some (Nil, h')
      ∧ store h' !! 1%positive =
          Some (ConnMock (mkMock "test-conn-1" false false [m])).
Proof.
  intros h m.
  destruct (not_running_unguarded h eq_refl) as (_ & _ & _ & Hb & _ & Hs).
  split; [reflexivity|].
  destruct (Hb None "mock" m) as (Hnil & Hgo & _).
  split; [exact Hnil|]. split; [exact Hgo|].
  destruct (Hs (λ _, "null") 7%N PickComm PickComm None "test-conn-1" m
              1%positive (Fixtures.mock "test-conn-1") Nil
              (ConnMock (mkMock "test-conn-1" false false [m]))
              eq_refl eq_refl eq_refl)
    as (h' & Hsend & Hstore & _).
  exists h'. split; [exact Hsend|].
  rewrite Hstore. apply lookup_insert_eq.
Defined.

(** * Further properties of the code *)

(** ** Messages *)

Module MessageProps.

Lemma priorities_eqb p :
  String.eqb p PriorityLow || String.eqb p PriorityNormal
  || String.eqb p PriorityHigh || String.eqb p PriorityCritical = true
  ↔ p ∈ priorities.
Proof.
  unfold priorities. rewrite !orb_true_iff, !String.eqb_eq.
  rewrite !elem_of_cons, elem_of_nil. tauto.
Qed.

(** A priority header that holds one of the four levels is what
    [GetMessagePriority] answers. *)
Lemma GetMessagePriority_header (m : Message) (p : string) :
  headersOf m !! "priority" = Some p → p ∈ priorities →
  GetMessagePriority m = p.
Proof.
  unfold GetMessagePriority, headersOf.
  destruct (Headers m) as [h|]; [|by rewrite lookup_empty].
  intros -> Hin. apply priorities_eqb in Hin. by rewrite Hin.
Qed.

(** X1.  [GetMessagePriority] always answers one of the four levels: the
    value of the "priority" header when that is one of them, and "normal"
    when the headers are nil, hold no priority, or hold another value. *)
Theorem GetMessagePriority_spec (m : Message) :
  GetMessagePriority m ∈ priorities
  ∧ (∀ p, headersOf m !! "priority" = Some p → p ∈ priorities →
          GetMessagePriority m = p)
  ∧ ((∀ p, headersOf m !! "priority" = Some p → p ∉ priorities) →
     GetMessagePriority m = PriorityNormal).
Proof.
  unfold GetMessagePriority, headersOf.
  destruct (Headers m) as [h|].
  2:{ split; [|split]; [| |done].
      - compute_done.
      - intros p Hp. by rewrite lookup_empty in Hp. }
  destruct (h !! "priority") as [p|] eqn:E.
  2:{ split; [|split]; [|done|done]. compute_done. }
  pose proof (priorities_eqb p) as Hp.
  destruct (String.eqb p PriorityLow || String.eqb p PriorityNormal
            || String.eqb p PriorityHigh || String.eqb p PriorityCritical).
  - split; [by apply Hp|]. split; [by intros ? [= <-]|].
    intros H. exfalso. by apply (H p); [|apply Hp].
  - split; [compute_done|]. split; [|done].
    intros ? [= <-] Hin. apply Hp in Hin. done.
Qed.

Lemma GetMessagePriority_spec_witness :
  GetMessagePriority
    (mkMessage "1" "x" VNil (Some (<["priority" := "critical"]> ∅))) = "critical"
  ∧ GetMessagePriority
      (mkMessage "1" "x" VNil (Some (<["priority" := "urgent"]> ∅))) = "normal".
Proof.
  split.
  - apply (GetMessagePriority_spec
             (mkMessage "1" "x" VNil (Some (<["priority" := "critical"]> ∅)))).
    + reflexivity.
    + compute_done.
  - apply (GetMessagePriority_spec
             (mkMessage "1" "x" VNil (Some (<["priority" := "urgent"]> ∅)))).
    intros p Hp. cbn in Hp. rewrite lookup_insert_eq in Hp.
    injection Hp as <-. compute_done.
Defined.

(** What [Build] makes of a message. *)
Lemma Build_cases clock Format t mb :
  let m := message mb in
  let t' := if String.eqb (ID m) "" then t + 9 else t in
  Build clock Format t mb =
  mkMessage
    (if String.eqb (ID m) "" then generateMessageID clock Format t else ID m)
    (Type_ m) (Data m)
    (if hasHeader "timestamp" (Headers m) then Headers m
     else Some (<["timestamp" :=
                    Format true "2006-01-02T15:04:05Z07:00" (clock t')]>
                  (headersOf m))).
Proof.
  cbn zeta. unfold Build, headersOf. destruct mb as [[id ty d hd]]. cbn.
  destruct (String.eqb id ""); cbn;
    destruct (hasHeader "timestamp" hd) eqn:E; cbn; try done;
    unfold WithTimestamp, WithHeader; cbn; by destruct hd.
Qed.

(** X2.  [Build] changes neither the type nor the data, keeps an ID that
    is set and every header that is present, and leaves a message with a
    non-empty ID and a timestamp header; so building a built message again
    changes nothing, whatever the clock says by then. *)
Theorem Build_stable clock Format t t' mb :
  let m := Build clock Format t mb in
  Type_ m = Type_ (message mb)
  ∧ Data m = Data (message mb)
  ∧ (ID (message mb) ≠ "" → ID m = ID (message mb))
  ∧ (∀ k v, headersOf (message mb) !! k = Some v → headersOf m !! k = Some v)
  ∧ ID m ≠ ""
  ∧ hasHeader "timestamp" (Headers m) = true
  ∧ Build clock Format t' {| message := m |} = m.
Proof.
  cbn zeta. rewrite Build_cases. cbn zeta.
  set (m := message mb).
  assert ((if String.eqb (ID m) "" then generateMessageID clock Format t
           else ID m) ≠ "") as Hid.
  { destruct (String.eqb_spec (ID m) ""); [|done].
    apply MessageFacts.generateMessageID_nonempty. }
  assert (hasHeader "timestamp"
            (if hasHeader "timestamp" (Headers m) then Headers m
             else Some (<["timestamp" :=
                    Format true "2006-01-02T15:04:05Z07:00"
                      (clock (if String.eqb (ID m) "" then t + 9 else t))]>
                  (headersOf m))) = true) as Hts.
  { destruct (hasHeader "timestamp" (Headers m)) eqn:E; [done|].
    apply MessageFacts.hasHeader_insert_eq. }
  split; [done|]. split; [done|]. split.
  { intros Hne. cbn. apply String.eqb_neq in Hne. by rewrite Hne. }
  split.
  { intros k v Hk. unfold headersOf at 1. cbn [Headers].
    destruct (hasHeader "timestamp" (Headers m)) eqn:E; [done|].
    destruct (decide (k = "timestamp")) as [->|Hne].
    - exfalso. unfold hasHeader, headersOf in *.
      destruct (Headers m) as [h|]; [|by rewrite lookup_empty in Hk].
      apply bool_decide_eq_false in E. apply E. by eexists.
    - by rewrite lookup_insert_ne. }
  split; [exact Hid|]. split; [exact Hts|].
  rewrite Build_cases. cbn zeta. cbn [message ID Type_ Data Headers].
  apply String.eqb_neq in Hid. rewrite Hid, Hts. done.
Qed.

Lemma Build_stable_witness :
  let mb := {| message := mkMessage "m-7" "chat" (VString "hi")
                            (Some (<["room" := "a"]> ∅)) |} in
  let m := Build (λ _, 0%N) (λ _ _ _, "T") 0 mb in
  ID m = "m-7" ∧ headersOf m !! "room" = Some "a".
Proof.
  intros mb m.
  destruct (Build_stable (λ _, 0%N) (λ _ _ _, "T") 0 0 mb)
    as (_ & _ & Hid & Hh & _).
  split; [by apply Hid|]. apply Hh. reflexivity.
Defined.

(** A message with an ID and a type is valid exactly when its data can
    be marshalled. *)
Lemma Validate_data json_encode m :
  ID m ≠ "" → Type_ m ≠ "" →
  Validate json_encode (Some m) = Nil ↔ json_unsupported (Data m) = None.
Proof.
  intros Hid Hty. unfold Validate, json_Marshal.
  apply String.eqb_neq in Hid, Hty. rewrite Hid, Hty.
  destruct (Data m) eqn:E; try done;
    destruct (json_unsupported _) eqn:Eu; done.
Qed.

(** The message a factory builds. *)
Lemma factory_built clock Format t ty d p :
  Build clock Format t
    (WithPriority p (WithData d (WithType ty NewMessageBuilder))) =
  mkMessage (generateMessageID clock Format t) ty d
    (Some (<["timestamp" :=
               Format true "2006-01-02T15:04:05Z07:00" (clock (t + 9))]>
             (<["priority" := p]> ∅))).
Proof.
  unfold WithPriority.
  by rewrite MessageFacts.Build_fresh with (h := <["priority" := p]> ∅).
Qed.

(** X3.  Each of the six factories yields a message of the type it
    names, which [IsValidMessageType] accepts, and with the priority it
    presets, which [GetMessagePriority] reads back.  That message passes
    [Validate] exactly when the data argument given to the factory can be
    marshalled; the two factories that take strings only always pass. *)
Theorem factories_checked json_encode clock Format t (a b : string) (d : value) :
  let ok (m : Message) (ty p : string) (payload : value) :=
    Type_ m = ty ∧ IsValidMessageType (Type_ m) = true
    ∧ GetMessagePriority m = p
    ∧ (Validate json_encode (Some m) = Nil ↔ json_unsupported payload = None) in
  ok (NotificationMessage clock Format t a b) "notification" "normal" VNil
  ∧ ok (AlertMessage clock Format t a b) "alert" "high" VNil
  ∧ ok (SystemMessage clock Format t a d) "system" "normal" d
  ∧ ok (UpdateMessage clock Format t a d) "update" "normal" d
  ∧ ok (BroadcastMessage clock Format t d) "broadcast" "normal" d
  ∧ ok (ErrorMessage clock Format t a b d) "error" "high" d.
Proof.
  cbn zeta.
  unfold NotificationMessage, AlertMessage, SystemMessage, UpdateMessage,
    BroadcastMessage, ErrorMessage.
  rewrite !factory_built.
  pose proof (MessageFacts.generateMessageID_nonempty clock Format t) as Hid.
  assert (∀ ty p payload payload',
    ty ∈ validTypes → p ∈ priorities → ty ≠ "" →
    json_unsupported payload = json_unsupported payload' →
    let m := mkMessage (generateMessageID clock Format t) ty payload
      (Some (<["timestamp" :=
                 Format true "2006-01-02T15:04:05Z07:00" (clock (t + 9))]>
               (<["priority" := p]> ∅))) in
    Type_ m = ty ∧ IsValidMessageType (Type_ m) = true
    ∧ GetMessagePriority m = p
    ∧ (Validate json_encode (Some m) = Nil ↔ json_unsupported payload' = None))
    as Hok.
  { intros ty p payload payload' Hty Hp Hne Hpl. cbn zeta. cbn [Type_].
    split; [done|]. split; [|split].
    - unfold IsValidMessageType. apply existsb_exists. exists ty.
      split; [by apply list_elem_of_In|apply String.eqb_refl].
    - apply GetMessagePriority_header; [|done]. unfold headersOf. cbn [Headers].
      by rewrite lookup_insert_ne, lookup_insert_eq.
    - rewrite <- Hpl. by apply Validate_data. }
  repeat split; try (apply Hok; [compute_done|compute_done|done|]); try done.
  all: try (cbn; by destruct (json_unsupported d)).
Qed.

Lemma get_Some_lt i (s : string) :
  i < String.length s → ∃ b, String.get i s = Some b.
Proof.
  revert i. induction s as [|x s IH]; intros i Hi; cbn in Hi; [lia|].
  destruct i as [|i]; cbn; [by eexists|]. apply IH. lia.
Qed.

Lemma get_Some_In i (s : string) b :
  String.get i s = Some b → b ∈ list_ascii_of_string s.
Proof.
  revert i. induction s as [|x s IH]; intros i; [by destruct i|].
  destruct i as [|i]; cbn.
  - intros [= ->]. by left.
  - intros H. right. by eapply IH.
Qed.

(** X4.  [randomString n] has exactly [n] bytes, each one a letter or a
    digit of the charset: the byte at position [i] is the one the charset
    holds at the clock reading taken for it, modulo 62. *)
Theorem randomString_spec (clock : nat → N) (n t : nat) :
  String.length (randomString clock n t) = n
  ∧ Forall (λ b, b ∈ list_ascii_of_string charset)
           (list_ascii_of_string (randomString clock n t))
  ∧ ∀ i, i < n →
      String.get i (randomString clock n t) =
      String.get (N.to_nat (clock (t + i) mod 62)) charset.
Proof.
  revert t. induction n as [|n IH]; intros t.
  { split; [done|]. split; [by constructor|]. intros i Hi. lia. }
  cbn [randomString].
  assert (N.to_nat (clock t mod N.of_nat (String.length charset)) < String.length charset)
    as Hlt.
  { change (String.length charset) with 62.
    pose proof (N.mod_lt (clock t) (N.of_nat 62) ltac:(done)). lia. }
  destruct (get_Some_lt _ _ Hlt) as [b Hb]. rewrite Hb.
  destruct (IH (S t)) as (Hlen & Hall & Hget).
  split; [cbn; by rewrite Hlen|]. split.
  - cbn [list_ascii_of_string]. constructor; [|done].
    exact (get_Some_In _ _ _ Hb).
  - intros [|i] Hi; cbn [String.get].
    + rewrite Nat.add_0_r. by rewrite <- Hb.
    + rewrite Hget by lia. by replace (S t + i) with (t + S i) by lia.
Qed.

Lemma randomString_spec_witness :
  String.get 2 (randomString (λ k, N.of_nat (k + 60)) 8 0) =
  String.get (N.to_nat (N.of_nat (0 + 2 + 60) mod 62)) charset.
Proof.
  apply (randomString_spec (λ k, N.of_nat (k + 60)) 8 0). lia.
Defined.

End MessageProps.

(** ** Lines and frames *)

Module LineProps.
Import Utf8 Utf8Facts SplitFacts.

#[local] Arguments second_ok : simpl never.
#[local] Arguments isCont : simpl never.
#[local] Arguments isASCII : simpl never.
#[local] Arguments runeLen : simpl never.

Lemma cont_not_terminator b : isCont b = true → isTerminator b = false.
Proof.
  intros H. destruct (isTerminator b) eqn:E; [|done].
  apply terminator_ascii, ascii_not_cont in E. congruence.
Qed.

Lemma second_not_terminator b0 b : second_ok b0 b = true → isTerminator b = false.
Proof.
  intros H. destruct (isTerminator b) eqn:E; [|done].
  apply terminator_ascii in E. apply (ascii_not_second b0) in E. congruence.
Qed.

Lemma lead_not_terminator b n : runeLen b = S (S n) → isTerminator b = false.
Proof.
  intros H. destruct (isTerminator b) eqn:E; [|done].
  apply terminator_ascii, runeLen_ascii in E. congruence.
Qed.

(** A rune is a terminator byte or holds none. *)
Lemma decode_terminators b0 s1 :
  let r := (decode b0 s1).1 in
  (∃ t, r = String t "" ∧ isTerminator t = true) ∨ terminators r = 0.
Proof.
  cbn zeta. unfold decode.
  destruct (runeLen b0) as [|[|[|[|[|n]]]]] eqn:E; cbn [fst]; try by right.
  - destruct (isTerminator b0) eqn:Eb; [left; by eexists|].
    right. cbn. by rewrite Eb.
  - pose proof (lead_not_terminator _ _ E) as H0.
    destruct s1 as [|b1 s2]; [by right|].
    destruct (second_ok b0 b1) eqn:E1; [|by right].
    right. cbn. by rewrite H0, (second_not_terminator _ _ E1).
  - pose proof (lead_not_terminator _ _ E) as H0.
    destruct s1 as [|b1 [|b2 s3]]; try by right.
    destruct (second_ok b0 b1) eqn:E1; [|by right].
    destruct (isCont b2) eqn:E2; [|by right].
    right. cbn.
    by rewrite H0, (second_not_terminator _ _ E1), (cont_not_terminator _ E2).
  - pose proof (lead_not_terminator _ _ E) as H0.
    destruct s1 as [|b1 [|b2 [|b3 s4]]]; try by right.
    destruct (second_ok b0 b1) eqn:E1; [|by right].
    destruct (isCont b2) eqn:E2; [|by right].
    destruct (isCont b3) eqn:E3; [|by right].
    right. cbn.
    by rewrite H0, (second_not_terminator _ _ E1), (cont_not_terminator _ E2),
      (cont_not_terminator _ E3).
Qed.

Lemma runes_terminators s :
  Forall (λ r, (∃ t, r = String t "" ∧ isTerminator t = true)
               ∨ terminators r = 0) (runes s).
Proof.
  assert (∀ n s, String.length s ≤ n →
    Forall (λ r, (∃ t, r = String t "" ∧ isTerminator t = true)
                 ∨ terminators r = 0) (runes s)) as H;
    [|by apply (H (String.length s))].
  clear. induction n as [|n IH]; intros [|b0 s1] Hlen; cbn in Hlen;
    try lia; try by constructor.
  rewrite runes_unfold. constructor; [apply decode_terminators|].
  apply IH. pose proof (skip_length (decode b0 s1).2 s1). lia.
Qed.

Lemma splitStep_clean st r :
  (∃ t, r = String t "" ∧ isTerminator t = true) ∨ terminators r = 0 →
  Forall (λ l, terminators l = 0) st.1 → terminators st.2 = 0 →
  Forall (λ l, terminators l = 0) (splitStep st r).1
  ∧ terminators (splitStep st r).2 = 0.
Proof.
  destruct st as [lines current]. cbn [fst snd].
  intros [(t & -> & Ht)|Hr] Hl Hc.
  - rewrite (splitStep_terminator _ _ _ Ht). cbn. split; [|done].
    apply Forall_app. split; [done|]. by constructor.
  - rewrite splitStep_other.
    + cbn. split; [done|]. rewrite terminators_app. lia.
    + intros ->. done.
    + intros ->. done.
Qed.

Lemma splitLoop_clean s st :
  Forall (λ l, terminators l = 0) st.1 → terminators st.2 = 0 →
  Forall (λ l, terminators l = 0) (splitLoop s st).1
  ∧ terminators (splitLoop s st).2 = 0.
Proof.
  unfold splitLoop. pose proof (runes_terminators s) as Hr.
  revert st. induction Hr as [|r rs Hr _ IH]; intros st Hl Hc; [done|].
  cbn [fold_left]. destruct (splitStep_clean st r Hr Hl Hc). by apply IH.
Qed.

(** [splitLines] returns at least one line. *)
Lemma splitLines_some (s : string) : splitLines s ≠ [].
Proof.
  pose proof (splitLines_length s) as H. intros E. rewrite E in H. cbn in H.
  destruct (endsInTerminator s) eqn:Ee; [|lia].
  assert (0 < terminators s); [|lia].
  clear -Ee. induction s as [|x s IH]; [done|]. cbn in *.
  destruct s; [rewrite Ee; lia|]. specialize (IH Ee). lia.
Qed.

(** X5.  No line [splitLines] returns holds a '\n' or a '\r', and it
    always returns at least one line: a payload cannot reach beyond the
    data fields of its frame. *)
Theorem splitLines_clean (s : string) :
  splitLines s ≠ [] ∧ Forall (λ l, terminators l = 0) (splitLines s).
Proof.
  split.
  - pose proof (splitLines_length s) as H. intros E. rewrite E in H. cbn in H.
    destruct (endsInTerminator s) eqn:Ee; [|lia].
    assert (0 < terminators s); [|lia].
    clear -Ee. induction s as [|x s IH]; [done|]. cbn in *.
    destruct s; [rewrite Ee; lia|]. specialize (IH Ee). lia.
  - unfold splitLines. destruct (String.eqb s ""); [by repeat constructor|].
    destruct (splitLoop_clean s ([], "")) as [Hl Hc]; [by constructor|done|].
    destruct (splitLoop s ([], "")) as [lines current]. cbn [fst snd] in *.
    destruct (negb (String.eqb current "") || (length lines =? 0)); [|done].
    apply Forall_app. split; [done|]. by constructor.
Qed.

Lemma splitLoop_prefix s lines current :
  splitLoop s (lines, current) =
  (lines ++ (splitLoop s ([], current)).1, (splitLoop s ([], current)).2).
Proof.
  unfold splitLoop. generalize (runes s) as rs.
  assert (∀ rs l1 l2 c,
    fold_left splitStep rs (l1 ++ l2, c) =
    (l1 ++ (fold_left splitStep rs (l2, c)).1,
     (fold_left splitStep rs (l2, c)).2)) as H.
  { induction rs as [|r rs IH]; intros l1 l2 c; [done|].
    cbn [fold_left]. unfold splitStep at 2 4 6.
    destruct (String.eqb r nl || String.eqb r cr).
    - rewrite <- app_assoc. apply IH.
    - apply IH. }
  intros rs. specialize (H rs lines [] current). by rewrite app_nil_r in H.
Qed.

Lemma foldr_append_acc (rs : list string) (x : string) :
  foldr String.append x rs = foldr String.append "" rs +:+ x.
Proof.
  induction rs as [|r rs IH]; cbn [foldr String.append]; [done|].
  by rewrite IH, string_app_assoc.
Qed.

Lemma reencode_app_ascii a t b :
  isASCII t = true →
  reencode (a +:+ String t b) = reencode a +:+ String t (reencode b).
Proof.
  intros Ht. unfold reencode. rewrite (runes_app_ascii _ _ _ Ht).
  rewrite foldr_app. cbn [foldr]. by rewrite foldr_append_acc.
Qed.

Lemma noCR_app a b : noCR (a +:+ b) = noCR a && noCR b.
Proof.
  induction a as [|x a IH]; cbn; [done|]. rewrite IH.
  by destruct (negb _).
Qed.

(** X6.  Joining the lines of a payload with "\n" gives the payload back
    as the range loop re-encodes it (each byte that is not part of a
    well-formed sequence becomes U+FFFD; an ASCII payload is unchanged, by
    [reencode_allASCII]), provided it holds no '\r' and does not end in
    '\n'. *)
Theorem splitLines_join_back (s : string) :
  noCR s = true → endsInTerminator s = false →
  join nl (splitLines s) = reencode s.
Proof.
  assert (∀ n s, String.length s ≤ n → noCR s = true →
            endsInTerminator s = false → join nl (splitLines s) = reencode s)
    as H; [|by apply (H (String.length s))].
  clear. induction n as [|n IH]; intros s Hlen Hcr Hend.
  { destruct s; cbn in Hlen; [done|lia]. }
  destruct (decide (s = "")) as [->|Hne]; [done|].
  destruct (first_terminator s) as [Hs|(a & t & b & -> & Ha & Ht)].
  - rewrite (splitLines_nonempty _ Hne), Hend, (splitLoop_line _ _ _ Hs). done.
  - rewrite noCR_app in Hcr. apply andb_true_iff in Hcr as [_ Hcr].
    cbn in Hcr. apply andb_true_iff in Hcr as [Ht' Hcrb].
    assert (t = LF) as ->.
    { destruct (isTerminator_cases _ Ht) as [->| ->]; [done|]. done. }
    rewrite endsInTerminator_app in Hend.
    destruct b as [|y b]; [done|].
    assert (String y b ≠ "") as Hbne by done.
    rewrite (splitLines_nonempty _ Hne), endsInTerminator_app, Hend.
    rewrite (splitLoop_app_terminator _ _ _ _ Ht), (splitLoop_line _ _ _ Ha).
    cbn [fst snd app String.append].
    rewrite splitLoop_prefix. cbn [fst snd].
    pose proof (splitLines_nonempty _ Hbne) as Hb. rewrite Hend in Hb.
    rewrite <- app_assoc, <- Hb. cbn [app].
    rewrite (reencode_app_ascii _ _ _ (terminator_ascii _ Ht)).
    rewrite <- (IH (String y b)); [|..|done|done].
    + destruct (splitLines (String y b)) eqn:E; [|done].
      by destruct (splitLines_some (String y b)).
    + rewrite string_length_app in Hlen. cbn in Hlen. cbn. lia.
Qed.

Lemma splitLines_join_back_witness :
  join nl (splitLines ("a" +:+ nl +:+ nl +:+ "b")) = "a" +:+ nl +:+ nl +:+ "b".
Proof.
  apply (splitLines_join_back ("a" +:+ nl +:+ nl +:+ "b")); reflexivity.
Defined.

End LineProps.

(** ** SSEConnection: frames, Send and the keep-alive loop *)

Module SSEProps.
Import Utf8Facts.

#[local] Set Warnings "-clear-no-such-hyp".

Lemma formatSSEMessage_cases json_encode m :
  formatSSEMessage json_encode m =
  match json_unsupported (Data m) with
  | Some ty => Fail ("failed to marshal data: json: unsupported type: " +:+ ty)
  | None =>
      Val ((if negb (String.eqb (ID m) "") then "id: " +:+ ID m +:+ nl else "")
           +:+ (if negb (String.eqb (Type_ m) "")
                then "event: " +:+ Type_ m +:+ nl else "")
           +:+ fold_right String.append ""
                 (dataLine <$> splitLines
                    match Data m with
                    | VString v => v
                    | VBytes v => v
                    | v => json_encode v
                    end)
           +:+ nl)
  end.
Proof.
  unfold formatSSEMessage, json_Marshal.
  destruct (Data m) eqn:E;
    destruct (json_unsupported _) eqn:Eu; try done; try reflexivity;
    rewrite SplitFacts.appendDataLines_concat; f_equal;
    destruct (String.eqb (ID m) ""), (String.eqb (Type_ m) "");
    cbn [negb]; by str_norm.
Qed.

(** X7.  [formatSSEMessage] fails exactly when json.Marshal has no
    encoding for the data, so every message [Validate] accepts is framed;
    a byte slice is framed like the string of its bytes; and every frame
    ends with the blank line that ends an event. *)
Theorem formatSSEMessage_total json_encode (m : Message) :
  ((∃ e, formatSSEMessage json_encode m = Fail e) ↔
     json_unsupported (Data m) ≠ None)
  ∧ (Validate json_encode (Some m) = Nil →
     ∃ frame, formatSSEMessage json_encode m = Val frame)
  ∧ (∀ b, Data m = VBytes b →
       formatSSEMessage json_encode m =
       formatSSEMessage json_encode
         (mkMessage (ID m) (Type_ m) (VString b) (Headers m)))
  ∧ (∀ frame, formatSSEMessage json_encode m = Val frame →
       ∃ pre, frame = pre +:+ nl +:+ nl).
Proof.
  rewrite formatSSEMessage_cases. split; [|split; [|split]].
  - destruct (json_unsupported (Data m)); split; try done.
    + intros _. by eexists.
    + by intros [e ?].
  - intros Hv. destruct (json_unsupported (Data m)) as [ty|] eqn:E; [|by eexists].
    exfalso. unfold Validate, json_Marshal in Hv.
    destruct (String.eqb (ID m) ""); [done|].
    destruct (String.eqb (Type_ m) ""); [done|].
    destruct (Data m); try done; by rewrite E in Hv.
  - intros b Hb. rewrite formatSSEMessage_cases. cbn [Data ID Type_].
    by rewrite Hb.
  - intros frame. destruct (json_unsupported (Data m)); [done|].
    intros [= <-].
    set (payload := match Data m with
                    | VString v => v | VBytes v => v | v => json_encode v end).
    pose proof (LineProps.splitLines_some payload) as Hne.
    destruct (exists_last Hne) as (init & [lst ->]).
    rewrite fmap_app, foldr_app. cbn [fmap list_fmap foldr].
    rewrite LineProps.foldr_append_acc.
    exists ((if negb (String.eqb (ID m) "") then "id: " +:+ ID m +:+ nl else "")
            +:+ (if negb (String.eqb (Type_ m) "")
                 then "event: " +:+ Type_ m +:+ nl else "")
            +:+ foldr String.append "" (dataLine <$> init)
            +:+ "data: " +:+ lst).
    unfold dataLine at 2. by rewrite !string_app_assoc.
Qed.

Lemma formatSSEMessage_total_witness :
  ∃ frame,
    formatSSEMessage (λ _, "{}")
      (mkMessage "m1" "notice" (VMap [("k", VInt 1)]) None) = Val frame.
Proof.
  apply (formatSSEMessage_total (λ _, "{}")
           (mkMessage "m1" "notice" (VMap [("k", VInt 1)]) None)).
  reflexivity.
Defined.




(** What a [Send] that returns nil has done. *)
Lemma Send_written json_encode now pick ctx m c r c' frame :
  SSE.IsClosed c = false →
  formatSSEMessage json_encode m = Val frame →
  SSE.Send json_encode now pick ctx (Some m) c = Some (r, c') →
  sse_lastActivity c' = now
  ∧ (r = Nil →
     body (writer c') = body (writer c) +:+ frame ∧ SSE.IsClosed c' = false).
Proof.
  intros Hopen Hfmt. unfold SSE.Send. rewrite Hopen, Hfmt.
  unfold SSE.IsClosed in Hopen.
  destruct pick; cbn [SSE.updateActivity writer]; [| | done |].
  - unfold SSE.writeAndFlush. cbn [writer writeErr].
    destruct (writeErr (writer c)) as [e|] eqn:E; intros [= <- <-].
    + unfold SSE.Close. cbn. rewrite Hopen. by cbn.
    + cbn. by rewrite Hopen.
  - destruct ctx as [e|]; [|done]. by intros [= <- <-].
  - destruct ctx as [e|]; [done|]. intros [= <- <-]. unfold SSE.Close. cbn.
    rewrite Hopen. by cbn.
Qed.

Lemma keepAliveMsg_frame json_encode tId tTs :
  ∃ frame,
    formatSSEMessage json_encode (SSEConn.keepAliveMsg tId tTs) = Val frame.
Proof. rewrite formatSSEMessage_cases. by eexists. Qed.

Lemma Close_closed c : SSE.IsClosed (SSE.Close c).2 = true.
Proof. unfold SSE.Close. by destruct (sse_closed c) eqn:E. Qed.

Lemma Close_writer c : writer (SSE.Close c).2 = writer c.
Proof. unfold SSE.Close. by destruct (sse_closed c). Qed.

(** X9.  After a tick of the keep-alive loop the loop goes on exactly
    when the connection is open: it stops on a closed connection, closes
    and stops once the last activity is more than five minutes old,
    without writing, and closes and stops when the keep-alive cannot be
    sent.  When it goes on, the body has grown by the frame of one
    keep-alive message. *)
Theorem keepAlive_tick json_encode clock t pick c go c' :
  SSEConn.keepAlive1 json_encode clock t pick SSEConn.Tick c = Some (go, c') →
  go = negb (SSE.IsClosed c')
  ∧ (SSE.IsClosed c = false →
     (5 * SSEConn.minute < clock t - sse_lastActivity c)%N →
     go = false ∧ writer c' = writer c)
  ∧ (go = true →
     ∃ frame,
       formatSSEMessage json_encode
         (SSEConn.keepAliveMsg (clock (t + 1)) (clock (t + 2))) = Val frame
       ∧ body (writer c') = body (writer c) +:+ frame
       ∧ sse_lastActivity c' = clock (t + 3)).
Proof.
  unfold SSEConn.keepAlive1.
  destruct (SSE.IsClosed c) eqn:Hc.
  { intros [= <- <-]. rewrite Hc. split; [done|]. split; done. }
  destruct (N.ltb_spec (5 * SSEConn.minute) (clock t - sse_lastActivity c))
    as [Hin|Hact].
  { intros [= <- <-]. rewrite Close_closed, Close_writer.
    split; [done|]. split; done. }
  destruct (keepAliveMsg_frame json_encode (clock (t + 1)) (clock (t + 2)))
    as [frame Hf].
  destruct (SSE.Send _ _ _ _ _ c) as [[r c1]|] eqn:Hs; [|done].
  pose proof (Send_written _ _ _ _ _ _ _ _ _ Hc Hf Hs) as (Hact' & Hok).
  cbn [mbind option_bind].
  destruct r as [|e|p].
  - intros [= <- <-]. destruct (Hok eq_refl) as (Hb & Ho).
    rewrite Ho. split; [done|]. split; [intros _ ?; lia|].
    intros _. by exists frame.
  - intros [= <- <-]. rewrite Close_closed.
    split; [done|]. split; [intros _ ?; lia|done].
  - exfalso. unfold SSE.Send in Hs. rewrite Hc, Hf in Hs.
    destruct pick; try done.
    destruct (SSE.writeAndFlush _ _) as [[?|] ?]; done.
Qed.

Lemma keepAlive_tick_witness :
  let c := mkSSE "c1" (mkWriter ∅ "" 0 true None) false false [] 0 [] in
  ∃ go c',
    SSEConn.keepAlive1 (λ _, "{}") (λ _, 400 * SSEConn.second)%N 0 PickComm
      SSEConn.Tick c = Some (go, c')
    ∧ go = false ∧ writer c' = writer c.
Proof.
  intros c.
  destruct (SSEConn.keepAlive1 (λ _, "{}") (λ _, 400 * SSEConn.second)%N 0
              PickComm SSEConn.Tick c)
    as [[go c']|] eqn:H; [|vm_compute in H; discriminate H].
  exists go, c'. split; [reflexivity|].
  destruct (keepAlive_tick _ _ _ _ _ _ _ H) as (_ & Hidle & _).
  apply Hidle; [reflexivity|]. vm_compute. reflexivity.
Defined.

End SSEProps.

(** ** WebSocketConnection: Send, Close and the pumps *)

Module WSProps.

#[local] Set Warnings "-clear-no-such-hyp".



(** X11.  [Close] of an open WebSocketConnection sets the closed flag,
    cancels the context, closes the send queue and the socket, and sets
    the write deadline.  It writes exactly one frame, the close frame with
    code 1000, when the socket is still open, and nothing when the socket
    has been closed already; the messages still queued are never written
    by it. *)
Theorem Close_frames now c :
  WS.IsClosed c = false →
  let c' := (WS.Close now c).2 in
  ws_closed c' = true ∧ ws_ctxDone c' = true ∧ sendClosed c' = true
  ∧ sockClosed (conn c') = true
  ∧ writeDeadline (conn c') = Some (now + writeTimeout c)%N
  ∧ send c' = send c
  ∧ written (conn c') =
      if sockClosed (conn c) then written (conn c)
      else written (conn c)
             ++ [RawFrame 8 (String (ascii_of_N 3) (String (ascii_of_N 232) ""))].
Proof.
  unfold WS.IsClosed, WS.Close. intros ->. cbn zeta. cbn [snd].
  cbn [ws_closed ws_ctxDone sendClosed conn send].
  unfold WriteMessage, SetWriteDeadline, closeSocket. cbn [sockClosed].
  destruct (sockClosed (conn c)); cbn; repeat split; done.
Qed.

Lemma Close_frames_witness :
  let c := mkWS "w1" (mkSocket [] true None None) false false []
                [Some (mkMessage "m" "t" VNil None)] false 0 10 60 in
  written (conn (WS.Close 5 c).2) = [].
Proof.
  intros c. apply (Close_frames 5 c). reflexivity.
Defined.

Lemma drain_fifo clock (q : list (option Message)) :
  Forall (λ m, m ≫= (λ m, json_unsupported (Data m)) = None) q →
  ∀ t c, send c = q → sockClosed (conn c) = false →
    ∃ c', WSConn.drain clock t (length q) c = (true, c')
          ∧ send c' = []
          ∧ written (conn c') = written (conn c) ++ (JSONFrame <$> q)
          ∧ sockClosed (conn c') = false
          ∧ ws_closed c' = ws_closed c ∧ sendClosed c' = sendClosed c.
Proof.
  induction 1 as [|m q Hm Hq IH]; intros t c Hsend Hopen.
  - exists c. cbn. rewrite app_nil_r. by rewrite Hsend.
  - cbn [length WSConn.drain]. rewrite Hsend.
    unfold WSConn.writePump1. rewrite Hsend.
    unfold WSConn.WriteJSON, SetWriteDeadline. cbn [sockClosed conn].
    rewrite Hopen, Hm.
    match goal with
    | |- ∃ c', WSConn.drain _ _ _ ?c1 = _ ∧ _ =>
        destruct (IH (t + 2) c1) as (c' & Hd & Hs & Hw & Ho & Hc & Hsc);
          [done|done|]
    end.
    exists c'. split; [done|]. split; [done|].
    split; [|done].
    rewrite Hw. cbn. by rewrite <- app_assoc.
Qed.

(** X12.  The write pump writes the queue in order: on an open socket,
    with every queued message encodable, running it on the queue writes
    one JSON frame per message, oldest first, after the frames written
    before, empties the queue and keeps going. *)
Theorem writePump_fifo clock t c :
  sockClosed (conn c) = false →
  Forall (λ m, m ≫= (λ m, json_unsupported (Data m)) = None) (send c) →
  ∃ c', WSConn.drain clock t (length (send c)) c = (true, c')
        ∧ send c' = []
        ∧ written (conn c') = written (conn c) ++ (JSONFrame <$> send c)
        ∧ sockClosed (conn c') = false.
Proof.
  intros Hopen Hall.
  destruct (drain_fifo clock (send c) Hall t c eq_refl Hopen)
    as (c' & ? & ? & ? & ? & _).
  by exists c'.
Qed.

Lemma writePump_fifo_witness :
  let m1 := Some (mkMessage "1" "t" (VString "a") None) in
  let m2 := Some (mkMessage "2" "t" (VString "b") None) in
  let c := mkWS "w1" (mkSocket [] false None None) false false []
                [m1; m2] false 0 10 60 in
  ∃ c', WSConn.drain (λ _, 0%N) 0 2 c = (true, c')
        ∧ send c' = []
        ∧ written (conn c') = [] ++ [JSONFrame m1; JSONFrame m2]
        ∧ sockClosed (conn c') = false.
Proof.
  intros m1 m2 c. apply (writePump_fifo (λ _, 0%N) 0 c); [reflexivity|].
  repeat constructor.
Defined.

(** X13.  Whenever the write pump stops it has closed the socket, but it
    never sets the closed flag of the connection nor closes the queue.  It
    stops on a message json cannot encode, leaving the messages queued
    behind it unwritten; it stops on the closing of the queue after a
    close frame; and it stops on any write to a closed socket. *)
Theorem writePump_stop clock t ev c go c' :
  WSConn.writePump1 clock t ev c = Some (go, c') →
  (go = false → sockClosed (conn c') = true)
  ∧ ws_closed c' = ws_closed c ∧ sendClosed c' = sendClosed c
  ∧ (go = true → sockClosed (conn c) = false)
  ∧ (∀ m rest ty,
       ev = WSConn.Recv → send c = Some m :: rest →
       json_unsupported (Data m) = Some ty →
       go = false ∧ send c' = rest
       ∧ Forall (λ f, ∀ v, f ≠ JSONFrame v)
           (drop (length (written (conn c))) (written (conn c')))).
Proof.
  unfold WSConn.writePump1.
  destruct ev.
  - destruct (send c) as [|m rest] eqn:Hq.
    + destruct (sendClosed c) eqn:Hs; [|done].
      intros [= <- <-]. cbn. split; [done|]. split; [done|].
      split; [done|]. split; [done|]. by intros ??? _ [=].
    + unfold WSConn.WriteJSON, SetWriteDeadline. cbn [sockClosed conn].
      destruct (sockClosed (conn c)) eqn:Ho.
      { intros [= <- <-]. cbn. split; [done|]. split; [done|].
        split; [done|]. split; [done|].
        intros m' rest' ty _ [= -> ->] Hty. split; [done|]. split; [done|].
        rewrite drop_all. constructor. }
      destruct (m ≫= _) as [ty|] eqn:Hm.
      * intros [= <- <-]. cbn. split; [done|]. split; [done|].
        split; [done|]. split; [done|].
        intros m' rest' ty' _ [= -> ->] Hty. split; [done|]. split; [done|].
        rewrite drop_app_length. by repeat constructor.
      * intros [= <- <-]. cbn. split; [done|]. split; [done|].
        split; [done|]. split; [done|].
        intros m' rest' ty' _ [= -> ->] Hty. cbn in Hm. congruence.
  - unfold WriteMessage, SetWriteDeadline. cbn [sockClosed].
    destruct (sockClosed (conn c)) eqn:Ho; intros [= <- <-]; cbn;
      repeat split; try done.
  - destruct (ws_ctxDone c); [|done]. intros [= <- <-]. cbn.
    repeat split; try done.
Qed.

Lemma writePump_stop_witness :
  let bad := mkMessage "1" "t" (VUnsupported "chan int") None in
  let m2 := Some (mkMessage "2" "t" (VString "b") None) in
  let c := mkWS "w1" (mkSocket [] false None None) false false []
                [Some bad; m2] false 0 10 60 in
  ∃ go c', WSConn.writePump1 (λ _, 0%N) 0 WSConn.Recv c = Some (go, c')
    ∧ go = false ∧ sockClosed (conn c') = true ∧ send c' = [m2].
Proof.
  intros bad m2 c.
  destruct (WSConn.writePump1 (λ _, 0%N) 0 WSConn.Recv c)
    as [[go c']|] eqn:H; [|vm_compute in H; discriminate H].
  exists go, c'. split; [reflexivity|].
  destruct (writePump_stop _ _ _ _ _ _ H) as (Hclosed & _ & _ & _ & Hbad).
  destruct (Hbad bad [m2] "chan int" eq_refl eq_refl eq_refl) as (Hgo & Hrest & _).
  split; [done|]. split; [by apply Hclosed|done].
Defined.





End WSProps.

(** ** Hub: life cycle and registry *)

Module HubProps.
Import Hub.

#[local] Set Warnings "-clear-no-such-hyp".

Lemma closeAll_frame now es h :
  let h' := fold_left (closeEntry now) es h in
  connections h' = connections h ∧ running h' = running h
  ∧ register h' = register h ∧ unregister h' = unregister h
  ∧ broadcast h' = broadcast h ∧ ctxDone h' = ctxDone h
  ∧ goroutines h' = goroutines h ∧ logger h' = logger h.
Proof. cbn zeta. rewrite HubFacts.closeAll_eq. by destruct h. Qed.

(** X15.  [Start] is refused exactly on a running hub, which it leaves
    as it was; otherwise it sets the hub running and starts the loop
    without touching registry, objects or queues.  [Stop] on a hub that is
    not running changes nothing, so a second [Stop] is a no-op.  [Stop]
    empties the registry but not the three queues: what was queued is
    still there when the hub is started again, which it can be. *)
Theorem lifecycle :
  (∀ parent h, running h = true →
     Start parent h = (Error "hub is already running", h))
  ∧ (∀ parent h, running h = false →
       let h' := (Start parent h).2 in
       (Start parent h).1 = Nil ∧ running h' = true
       ∧ connections h' = connections h ∧ store h' = store h
       ∧ goroutines h' = goroutines h ++ [GoRun]
       ∧ register h' = register h ∧ unregister h' = unregister h
       ∧ broadcast h' = broadcast h)
  ∧ (∀ now h, running h = false → Stop now h = (Nil, h))
  ∧ (∀ now now' h, Stop now' (Stop now h).2 = (Nil, (Stop now h).2))
  ∧ (∀ now h,
       let h' := (Stop now h).2 in
       register h' = register h ∧ unregister h' = unregister h
       ∧ broadcast h' = broadcast h)
  ∧ (∀ now parent h,
       let h' := (Start parent (Stop now h).2).2 in
       (Start parent (Stop now h).2).1 = Nil ∧ running h' = true
       ∧ register h' = register h ∧ unregister h' = unregister h
       ∧ broadcast h' = broadcast h).
Proof.
  assert (∀ now h, running (Stop now h).2 = false) as Hstopped.
  { intros now h. unfold Stop. by destruct (running h) eqn:E. }
  assert (∀ now h, register (Stop now h).2 = register h
                   ∧ unregister (Stop now h).2 = unregister h
                   ∧ broadcast (Stop now h).2 = broadcast h) as Hqueues.
  { intros now h. unfold Stop. destruct (running h) eqn:E; [|done]. cbn.
    match goal with
    | |- context [fold_left (closeEntry now) ?es ?h0] =>
        destruct (closeAll_frame now es h0) as (_ & _ & -> & -> & -> & _)
    end.
    done. }
  assert (∀ now h, running h = false → Stop now h = (Nil, h)) as Hnoop.
  { intros now h E. unfold Stop. by rewrite E. }
  split; [|split; [|split; [|split; [|split]]]].
  - intros parent h E. unfold Start. by rewrite E.
  - intros parent h E. unfold Start. rewrite E. done.
  - exact Hnoop.
  - intros now now' h. by apply Hnoop.
  - exact Hqueues.
  - intros now parent h. cbn zeta. unfold Start. rewrite Hstopped. cbn.
    split; [done|]. split; [done|]. apply Hqueues.
Qed.

Lemma lifecycle_witness :
  Stop 5 (New Fixtures.objects) = (Nil, New Fixtures.objects)
  ∧ Start None (Start None (New Fixtures.objects)).2 =
      (Error "hub is already running", (Start None (New Fixtures.objects)).2)
  ∧ register (Start None (Stop 5 Fixtures.queued).2).2 = [1%positive].
Proof.
  destruct lifecycle as (H1 & H2 & H3 & _).
  split; [by apply H3|]. split; [by apply H1|].
  destruct (H2 None (Stop 5 Fixtures.queued).2 eq_refl)
    as (_ & _ & _ & _ & _ & -> & _).
  reflexivity.
Defined.

Lemma handleRegister_eq l c h :
  store h !! l = Some c →
  handleRegister l h =
  go (GoWatch l)
    (withLog LevelInfo
       ("Connection " +:+ Conn.ID c +:+ " registered (type: "
          +:+ Conn.Type_ c +:+ ")")
       (withConnections (<[Conn.ID c := l]> (connections h)) h)).
Proof. intros Hl. unfold handleRegister. by rewrite Hl. Qed.

Lemma handleUnregister_eq now id l c h :
  connections h !! id = Some l → store h !! l = Some c →
  handleUnregister now id h =
  withLog LevelInfo ("Connection " +:+ id +:+ " unregistered")
    (withStore (<[l := (Conn.Close now c).2]> (store h))
       (withConnections (delete id (connections h)) h)).
Proof.
  intros Hid Hl. unfold handleUnregister. rewrite Hid.
  cbn [withConnections store]. by rewrite Hl.
Qed.

(** X16.  Registering a connection under an id that is free makes
    [GetConnection] find it and [ConnectionCount] grow by one;
    unregistering it then gives back the registry there was, the count
    there was, [GetConnection] finds nothing under the id, and the
    connection is closed. *)
Theorem register_unregister now l c h :
  store h !! l = Some c → connections h !! Conn.ID c = None →
  let h1 := handleRegister l h in
  let h2 := handleUnregister now (Conn.ID c) h1 in
  GetConnection (Conn.ID c) h1 = Some l
  ∧ ConnectionCount h1 = S (ConnectionCount h)
  ∧ connections h2 = connections h
  ∧ ConnectionCount h2 = ConnectionCount h
  ∧ GetConnection (Conn.ID c) h2 = None
  ∧ closedAt h2 l = true.
Proof.
  intros Hl Hfree. cbn zeta.
  rewrite (handleRegister_eq _ _ _ Hl).
  rewrite (handleUnregister_eq now (Conn.ID c) l c);
    [|apply lookup_insert_eq|exact Hl].
  unfold GetConnection, ConnectionCount, closedAt.
  cbn [go withLog withConnections withStore connections store].
  rewrite delete_insert_id by done.
  split; [apply lookup_insert_eq|]. split; [by apply map_size_insert_None|].
  split; [done|]. split; [done|]. split; [done|].
  rewrite lookup_insert_eq. apply HubFacts.Conn_Close_closed.
Qed.

Lemma register_unregister_witness :
  let h := (Start None (New Fixtures.objects)).2 in
  ConnectionCount (handleRegister 1%positive h) = 1
  ∧ ConnectionCount
      (handleUnregister 5 "test-conn-1" (handleRegister 1%positive h)) = 0.
Proof.
  intros h.
  destruct (register_unregister 5 1%positive (Fixtures.mock "test-conn-1") h
              eq_refl eq_refl) as (_ & H1 & _ & H2 & _).
  split; [exact H1|exact H2].
Defined.

(** X17.  Registering a connection under an id that is taken replaces
    the entry: [GetConnection] finds the new connection, the count stays,
    and the connection registered before is neither closed nor changed in
    any way; no object is. *)
Theorem register_replaces l l0 c h :
  store h !! l = Some c → connections h !! Conn.ID c = Some l0 →
  let h1 := handleRegister l h in
  GetConnection (Conn.ID c) h1 = Some l
  ∧ ConnectionCount h1 = ConnectionCount h
  ∧ store h1 = store h
  ∧ (∀ id, id ≠ Conn.ID c → GetConnection id h1 = GetConnection id h).
Proof.
  intros Hl Htaken. cbn zeta. rewrite (handleRegister_eq _ _ _ Hl).
  unfold GetConnection, ConnectionCount.
  cbn [go withLog withConnections connections store].
  split; [apply lookup_insert_eq|]. split.
  - rewrite <- (insert_delete_eq (connections h)).
    rewrite map_size_insert_None by apply lookup_delete_eq.
    rewrite <- (insert_delete_id (connections h) _ _ Htaken) at 2.
    by rewrite map_size_insert_None by apply lookup_delete_eq.
  - split; [done|]. intros id Hne. by rewrite lookup_insert_ne.
Qed.

Lemma register_replaces_witness :
  let objs : gmap loc Connection :=
    <[1%positive := Fixtures.mock "a"]> (<[2%positive := Fixtures.mock "a"]> ∅) in
  let h := handleRegister 1%positive (New objs) in
  GetConnection "a" (handleRegister 2%positive h) = Some 2%positive
  ∧ closedAt (handleRegister 2%positive h) 1%positive = false.
Proof.
  intros objs h.
  destruct (register_replaces 2%positive 1%positive (Fixtures.mock "a") h
              eq_refl eq_refl) as (H1 & _ & H3 & _).
  split; [exact H1|]. unfold closedAt. rewrite H3. reflexivity.
Defined.

(** X18.  Unregistering an id that is registered removes that entry and
    no other, closes the connection it referred to and no other object,
    and lowers the count by one. *)
Theorem unregister_present now id l c h :
  connections h !! id = Some l → store h !! l = Some c →
  let h' := handleUnregister now id h in
  connections h' = delete id (connections h)
  ∧ S (ConnectionCount h') = ConnectionCount h
  ∧ store h' !! l = Some (Conn.Close now c).2
  ∧ closedAt h' l = true
  ∧ (∀ l', l' ≠ l → store h' !! l' = store h !! l')
  ∧ (∀ id', id' ≠ id → GetConnection id' h' = GetConnection id' h).
Proof.
  intros Hid Hl. cbn zeta. rewrite (handleUnregister_eq _ _ _ _ _ Hid Hl).
  unfold ConnectionCount, closedAt, GetConnection.
  cbn [withConnections withLog withStore store connections].
  split; [done|]. split.
  { rewrite <- (insert_delete_id (connections h) _ _ Hid) at 2.
    by rewrite map_size_insert_None by apply lookup_delete_eq. }
  rewrite lookup_insert_eq. split; [done|].
  split; [apply HubFacts.Conn_Close_closed|]. split.
  - intros l' Hne. by rewrite lookup_insert_ne.
  - intros id' Hne. by rewrite lookup_delete_ne.
Qed.

Lemma unregister_present_witness :
  let h := handleRegister 2%positive
             (handleRegister 1%positive (New Fixtures.objects)) in
  S (ConnectionCount (handleUnregister 5 "conn-2" h)) = ConnectionCount h
  ∧ GetConnection "test-conn-1" (handleUnregister 5 "conn-2" h) = Some 1%positive.
Proof.
  intros h.
  destruct (unregister_present 5 "conn-2" 2%positive (Fixtures.mock "conn-2") h
              eq_refl eq_refl) as (_ & H1 & _ & _ & _ & H2).
  split; [exact H1|]. rewrite H2; [reflexivity|done].
Defined.

Lemma fold_go {A} (G : A → Goroutine) (xs : list A) h :
  fold_left (λ h x, go (G x) h) xs h =
  mkHub (store h) (connections h) (running h) (logger h) (register h)
        (unregister h) (broadcast h) (ctxDone h)
        (goroutines h ++ (G <$> xs)).
Proof.
  revert h. induction xs as [|x xs IH]; intros h; cbn [fold_left].
  - cbn. rewrite app_nil_r. by destruct h.
  - rewrite IH. cbn. by rewrite <- app_assoc.
Qed.

Lemma sameQueues_bounded h h' : sameQueues h h' → bounded h → bounded h'.
Proof. unfold sameQueues, bounded. by intros (-> & -> & ->). Qed.

Lemma handleRegister_queues l h : sameQueues h (handleRegister l h).
Proof. unfold handleRegister. by destruct (store h !! l). Qed.

Lemma handleUnregister_queues now id h : sameQueues h (handleUnregister now id h).
Proof.
  unfold handleUnregister. destruct (connections h !! id); [|done].
  cbn. by destruct (store h !! _).
Qed.

Lemma handleBroadcast_queues m h : sameQueues h (handleBroadcast m h).2.
Proof. unfold handleBroadcast. rewrite fold_go. by destruct m. Qed.

Lemma cleanup_queues h : sameQueues h (cleanupClosedConnections h).
Proof.
  unfold cleanupClosedConnections.
  generalize ((filter (λ e, closedAt h e.2 = true)
                 (map_to_list (connections h))).*1) as ids.
  intros ids. revert h.
  induction ids as [|i ids IH]; intros h; cbn [fold_left]; [done|].
  destruct (IH (withLog LevelInfo ("Cleaned up closed connection " +:+ i)
                  (withConnections (delete i (connections h)) h)))
    as (H1 & H2 & H3).
  unfold sameQueues. by rewrite H1, H2, H3.
Qed.

Lemma Unregister_bounded pick id h r h' :
  UnregisterConnection pick id h = Some (r, h') → bounded h → bounded h'.
Proof.
  unfold UnregisterConnection, bounded.
  destruct (negb (IsRunning h)); [by intros [= <- <-]|].
  destruct pick; try done.
  - destruct (Nat.ltb_spec (length (unregister h)) unregisterCap); [|done].
    intros [= <- <-]. cbn. rewrite length_app. cbn. lia.
  - destruct (ctxDone h); [|done]. by intros [= <- <-].
  - destruct (_ || _); [done|]. by intros [= <- <-].
Qed.

(** X19.  The three channels stay within their capacities (100, 100 and
    1000): from a hub whose queues are within them, every operation of
    the hub, every iteration of its loop and every goroutine it starts
    leads to a hub whose queues are within them. *)
Theorem queues_bounded (h : Hub) :
  bounded h →
  (∀ pick l r h', RegisterConnection pick l h = Some (r, h') → bounded h')
  ∧ (∀ pick id r h', UnregisterConnection pick id h = Some (r, h') → bounded h')
  ∧ (∀ pick ctx m r h', Broadcast pick ctx m h = Some (r, h') → bounded h')
  ∧ (∀ je now pick pickU ctx id m r h',
       SendToConnection je now pick pickU ctx id m h = Some (r, h') → bounded h')
  ∧ (∀ ctx ty m, bounded (BroadcastToType ctx ty m h).2)
  ∧ (∀ now ev go h', run1 now ev h = Some (go, h') → bounded h')
  ∧ (∀ now, bounded (Stop now h).2)
  ∧ (∀ parent, bounded (Start parent h).2)
  ∧ (∀ je now pick pickU ctxB g r h',
       HubGo.run je now pick pickU ctxB g h = Some (r, h') → bounded h').
Proof.
  intros Hb. pose proof Hb as (Hr & Hu & Hbc).
  split; [|split; [|split; [|split; [|split; [|split; [|split; [|split]]]]]]].
  - intros pick l r h'. unfold RegisterConnection.
    destruct (negb (IsRunning h)); [by intros [= <- <-]|].
    destruct pick; try done.
    + destruct (Nat.ltb_spec (length (register h)) registerCap); [|done].
      intros [= <- <-]. unfold bounded. cbn. rewrite length_app. cbn. lia.
    + destruct (ctxDone h); [|done]. by intros [= <- <-].
    + destruct (_ || _); [done|]. by intros [= <- <-].
  - intros pick id r h' H. by eapply Unregister_bounded.
  - intros pick ctx m r h'. unfold Broadcast.
    destruct (negb (IsRunning h)); [by intros [= <- <-]|].
    destruct pick.
    + destruct (Nat.ltb_spec (length (broadcast h)) broadcastCap); [|done].
      intros [= <- <-]. unfold bounded. cbn. rewrite length_app. cbn. lia.
    + destruct (bool_decide _); [|done]. by intros [= <- <-].
    + destruct (ctxDone h); [|done]. by intros [= <- <-].
    + destruct (_ || _); [done|]. by intros [= <- <-].
  - intros je now pick pickU ctx id m r h'. unfold SendToConnection.
    destruct (GetConnection id h) as [l|]; [|by intros [= <- <-]].
    destruct (store h !! l) as [c|]; [|done]. cbn [mbind option_bind].
    destruct (Conn.Send _ _ _ _ _ c) as [[r0 c']|]; [|done].
    cbn [mbind option_bind].
    destruct r0; try by intros [= <- <-].
    destruct (UnregisterConnection _ _ _) as [[r1 h1]|] eqn:Hun; [|done].
    cbn. intros [= <- <-]. by apply (Unregister_bounded _ _ _ _ _ Hun).
  - intros ctx ty m. unfold BroadcastToType. cbn [snd]. by rewrite fold_go.
  - intros now ev go0 h'. unfold run1. destruct ev.
    + destruct (register h) as [|l rest] eqn:E; [done|]. intros [= <- <-].
      eapply sameQueues_bounded; [apply handleRegister_queues|].
      unfold bounded. cbn in *. lia.
    + destruct (unregister h) as [|id rest] eqn:E; [done|]. intros [= <- <-].
      eapply sameQueues_bounded; [apply handleUnregister_queues|].
      unfold bounded. cbn in *. lia.
    + destruct (broadcast h) as [|m rest] eqn:E; [done|].
      match goal with
      | |- context [handleBroadcast m ?h0] =>
          pose proof (handleBroadcast_queues m h0) as Hq;
          destruct (handleBroadcast m h0) as [r1 h1]
      end.
      assert (bounded h1) as Hb1.
      { eapply sameQueues_bounded; [exact Hq|].
        unfold bounded. cbn in *. lia. }
      destruct r1; by intros [= <- <-].
    + intros [= <- <-].
      eapply sameQueues_bounded; [apply cleanup_queues|done].
    + destruct (ctxDone h); [|done]. by intros [= <- <-].
  - intros now. unfold Stop. destruct (negb (running h)); [done|]. cbn.
    match goal with
    | |- context [fold_left (closeEntry now) ?es ?h0] =>
        destruct (closeAll_frame now es h0) as (_ & _ & Hq1 & Hq2 & Hq3 & _)
    end.
    unfold bounded. cbn. by rewrite Hq1, Hq2, Hq3.
  - intros parent. unfold Start. by destruct (running h).
  - intros je now pick pickU ctxB g r h'.
    assert (∀ failed ctx l m,
      HubGo.sendBody failed je now pick pickU ctx l m h = Some (r, h') →
      bounded h') as Hbody.
    { intros failed ctx l m. unfold HubGo.sendBody.
      destruct (store h !! l) as [c|]; [|done]. cbn [mbind option_bind].
      destruct (Conn.Send _ _ _ _ _ c) as [[r0 c']|]; [|done].
      cbn [mbind option_bind].
      destruct r0; try by intros [= <- <-].
      destruct (UnregisterConnection _ _ _) as [[r1 h1]|] eqn:Hun; [|done].
      cbn. intros [= <- <-]. by apply (Unregister_bounded _ _ _ _ _ Hun). }
    destruct g as [|l|ctx l m|l m]; cbn [HubGo.run]; try done; try apply Hbody.
    destruct (store h !! l) as [c|]; [|done]. cbn [mbind option_bind].
    destruct (Conn.Context c); [|done].
    destruct (UnregisterConnection _ _ _) as [[r1 h1]|] eqn:Hun; [|done].
    cbn. intros [= <- <-]. by apply (Unregister_bounded _ _ _ _ _ Hun).
Qed.

Lemma queues_bounded_witness :
  let h := mkHub ∅ ∅ true [] [] (replicate 99 "c1") [] false [GoRun] in
  ∃ r h', UnregisterConnection PickComm "c2" h = Some (r, h')
          ∧ length (unregister h') ≤ 100.
Proof.
  intros h.
  destruct (UnregisterConnection PickComm "c2" h) as [[r h']|] eqn:H;
    [|vm_compute in H; discriminate H].
  exists r, h'. split; [reflexivity|].
  assert (bounded h) as Hb.
  { unfold bounded, registerCap, unregisterCap, broadcastCap. cbn. lia. }
  destruct (queues_bounded h Hb) as (_ & Hu & _).
  apply (Hu PickComm "c2" r h' H).
Defined.

Lemma filter_none {A} (P : A → Prop) `{!∀ x, Decision (P x)} (l : list A) :
  Forall (λ x, ¬ P x) l → filter P l = [].
Proof.
  induction 1 as [|x l Hx _ IH]; [done|].
  by rewrite filter_cons, decide_False.
Qed.

(** X20.  A cleanup sweep on a registry that holds no closed connection
    changes nothing at all, and a second sweep right after a first
    changes nothing either. *)
Theorem cleanup_idempotent (h : Hub) :
  ((∀ id l, connections h !! id = Some l → closedAt h l = false) →
   cleanupClosedConnections h = h)
  ∧ cleanupClosedConnections (cleanupClosedConnections h) =
      cleanupClosedConnections h.
Proof.
  assert (∀ h, (∀ id l, connections h !! id = Some l → closedAt h l = false) →
               cleanupClosedConnections h = h) as Hopen.
  { clear. intros h Hall. unfold cleanupClosedConnections.
    assert (filter (λ e : string * loc, closedAt h e.2 = true)
              (map_to_list (connections h)) = []) as ->; [|done].
    apply filter_none, Forall_forall.
    intros [id l] Hin%elem_of_map_to_list. cbn. by rewrite (Hall _ _ Hin). }
  split; [apply Hopen|]. apply Hopen.
  destruct (HubFacts.cleanup_lookup h) as [Hs Hc].
  intros id l. rewrite Hc. unfold closedAt at 2. rewrite Hs.
  fold (closedAt h l).
  destruct (connections h !! id) as [l'|]; [|done].
  destruct (closedAt h l') eqn:E; [done|]. by intros [= <-].
Qed.

Lemma cleanup_idempotent_witness :
  let h := handleRegister 1%positive (New Fixtures.objects) in
  cleanupClosedConnections h = h.
Proof.
  intros h. apply (proj1 (cleanup_idempotent h)).
  intros id l Hl.
  change (connections h)
    with (<["test-conn-1" := 1%positive]> (∅ : gmap string loc)) in Hl.
  apply lookup_insert_Some in Hl as [[_ <-]|[_ Hl]]; [reflexivity|].
  by rewrite lookup_empty in Hl.
Defined.

Lemma GetConnections_elem h l :
  l ∈ GetConnections h ↔ ∃ id, connections h !! id = Some l.
Proof.
  unfold GetConnections. rewrite list_elem_of_fmap. split.
  - intros ([id l'] & -> & Hin%elem_of_map_to_list). by exists id.
  - intros [id Hid]. exists (id, l). split; [done|].
    by apply elem_of_map_to_list.
Qed.

(** X21.  [GetConnections] lists each registered connection once per id,
    as many as [ConnectionCount] counts, and [GetConnectionsByType] those
    among them of the type asked for.  [BroadcastToType] and the
    broadcast handling of the loop start exactly one sending goroutine for
    each connection so listed and touch neither registry nor objects. *)
Theorem fan_out ctx ty m h :
  length (GetConnections h) = ConnectionCount h
  ∧ (∀ l, l ∈ GetConnections h ↔ ∃ id, connections h !! id = Some l)
  ∧ (∀ l, l ∈ GetConnectionsByType ty h ↔
          l ∈ GetConnections h ∧ typeOf h l = Some ty)
  ∧ (let h1 := (BroadcastToType ctx ty m h).2 in
     goroutines h1 =
       goroutines h ++ ((λ l, GoSendTo ctx l m) <$> GetConnectionsByType ty h)
     ∧ connections h1 = connections h ∧ store h1 = store h)
  ∧ (let h2 := (handleBroadcast m h).2 in
     goroutines h2 =
       goroutines h ++ ((λ l, GoSendBroadcast l m) <$> GetConnections h)
     ∧ connections h2 = connections h ∧ store h2 = store h).
Proof.
  split; [|split; [|split; [|split]]].
  - unfold GetConnections, ConnectionCount.
    by rewrite length_fmap, length_map_to_list.
  - apply GetConnections_elem.
  - intros l. unfold GetConnectionsByType. rewrite list_elem_of_filter. tauto.
  - cbn zeta. unfold BroadcastToType. cbn [snd]. by rewrite fold_go.
  - cbn zeta. unfold handleBroadcast. rewrite fold_go. by destruct m.
Qed.

(** X22.  A connection whose Send fails is reaped: when
    [SendToConnection] returns the error of a failed Send on a running,
    live hub whose unregister channel is empty, the id is queued for
    unregistration, and the next unregister handling of the loop removes
    the entry and closes the connection. *)
Theorem failed_send_reaped je now now' pick pickU ctx id m l err h h1 :
  running h = true → ctxDone h = false → unregister h = [] →
  connections h !! id = Some l →
  SendToConnection je now pick pickU ctx id m h = Some (Error err, h1) →
  unregister h1 = [id] ∧ connections h1 = connections h
  ∧ ∃ h2, run1 now' EvUnregister h1 = Some (true, h2)
          ∧ GetConnection id h2 = None
          ∧ closedAt h2 l = true
          ∧ S (ConnectionCount h2) = ConnectionCount h.
Proof.
  intros Hrun Hlive Hq Hid. unfold SendToConnection, GetConnection.
  rewrite Hid. destruct (store h !! l) as [c|] eqn:Hl; [|done].
  cbn [mbind option_bind].
  destruct (Conn.Send _ _ _ _ _ c) as [[r c']|]; [|done].
  cbn [mbind option_bind].
  destruct r as [|e|p]; try done.
  unfold UnregisterConnection, IsRunning.
  cbn [withLog withStore running unregister ctxDone].
  rewrite Hrun, Hlive, Hq. cbn [negb length].
  destruct pickU; cbn; try done.
  intros [= <- <-]. cbn [unregister connections].
  split; [done|]. split; [done|].
  unfold run1. cbn [unregister].
  eexists. split; [reflexivity|].
  rewrite (handleUnregister_eq now' id l c');
    [|done|by cbn; rewrite lookup_insert_eq].
  unfold GetConnection, closedAt, ConnectionCount.
  cbn [withLog withStore withConnections connections store].
  split; [apply lookup_delete_eq|]. split.
  - rewrite lookup_insert_eq. apply HubFacts.Conn_Close_closed.
  - rewrite <- (insert_delete_id (connections h) _ _ Hid) at 2.
    by rewrite map_size_insert_None by apply lookup_delete_eq.
Qed.

Lemma failed_send_reaped_witness :
  let gone := ConnSSE (mkSSE "a" (mkWriter ∅ "" 0 true None) true true [] 3 []) in
  let h := mkHub (<[1%positive := gone]> ∅) (<["a" := 1%positive]> ∅)
                 true [] [] [] [] false [GoRun] in
  ∃ h1,
    SendToConnection (λ _, "{}") 5 PickComm PickComm None "a" None h
      = Some (Error "client is closed", h1)
    ∧ unregister h1 = ["a"].
Proof.
  intros gone h.
  destruct (SendToConnection (λ _, "{}") 5 PickComm PickComm None "a" None h)
    as [[r h1]|] eqn:H; [|vm_compute in H; discriminate H].
  assert (r = Error "client is closed") as -> by (vm_compute in H; congruence).
  exists h1. split; [reflexivity|].
  by destruct (failed_send_reaped _ 5 6 _ _ _ "a" _ 1%positive _ h h1
                 eq_refl eq_refl eq_refl eq_refl H) as (? & _).
Defined.

Lemma runAll_sends je now pick pickU ctxB m (ls : list loc) :
  NoDup ls →
  ∀ h,
    (∀ l, l ∈ ls → ∃ c c', store h !! l = Some c
                          ∧ Conn.Send je now pick ctxB m c = Some (Nil, c')) →
    ∃ σ', HubGo.runAll je now pick pickU ctxB
            ((λ l, GoSendBroadcast l m) <$> ls) h = Some (withStore σ' h)
          ∧ (∀ l c, l ∈ ls → store h !! l = Some c →
               ∃ c', Conn.Send je now pick ctxB m c = Some (Nil, c')
                     ∧ σ' !! l = Some c')
          ∧ (∀ l, l ∉ ls → σ' !! l = store h !! l).
Proof.
  induction 1 as [|l0 ls Hnotin Hnd IH]; intros h Hall.
  - exists (store h). cbn. split; [by destruct h|]. split; [|done].
    intros l c Hin. by apply elem_of_nil in Hin.
  - destruct (Hall l0 ltac:(by left)) as (c0 & c0' & Hl0 & Hs0).
    cbn [fmap list_fmap HubGo.runAll HubGo.run]. unfold HubGo.sendBody.
    rewrite Hl0. cbn [mbind option_bind]. rewrite Hs0.
    cbn [mbind option_bind].
    destruct (IH (withStore (<[l0 := c0']> (store h)) h)) as (σ' & Hrun & Hin & Hout).
    { intros l Hl. destruct (Hall l ltac:(by right)) as (c & c' & Hc & Hs).
      exists c, c'. split; [|done]. cbn.
      rewrite lookup_insert_ne; [done|]. by intros ->. }
    exists σ'. split; [by rewrite Hrun; destruct h|]. split.
    + intros l c [->|Hl]%elem_of_cons Hc.
      * rewrite Hl0 in Hc. injection Hc as <-. exists c0'. split; [done|].
        rewrite (Hout l0 Hnotin). cbn. apply lookup_insert_eq.
      * apply (Hin l c Hl). cbn. rewrite lookup_insert_ne; [done|].
        by intros ->.
    + intros l Hl. rewrite (Hout l) by (intros ?; apply Hl; by right).
      cbn. rewrite lookup_insert_ne; [done|]. intros ->. apply Hl. by left.
Qed.

(** X23.  A broadcast reaches every registered connection once: when no
    two ids share a connection and the Send of the message succeeds on
    each registered connection, running the goroutines the broadcast
    handling starts leaves each registered connection as one Send of the
    message leaves it, and leaves the registry, the queues and every
    other object unchanged. *)
Theorem broadcast_delivery je now pick pickU ctxB m h :
  (∀ id id' l, connections h !! id = Some l → connections h !! id' = Some l →
               id = id') →
  (∀ id l, connections h !! id = Some l →
     ∃ c c', store h !! l = Some c
             ∧ Conn.Send je now pick ctxB m c = Some (Nil, c')) →
  ∃ h', HubGo.runAll je now pick pickU ctxB
          ((λ l, GoSendBroadcast l m) <$> GetConnections h) h = Some h'
        ∧ connections h' = connections h ∧ sameQueues h h'
        ∧ (∀ id l c, connections h !! id = Some l → store h !! l = Some c →
             ∃ c', Conn.Send je now pick ctxB m c = Some (Nil, c')
                   ∧ store h' !! l = Some c')
        ∧ (∀ l, (∀ id, connections h !! id ≠ Some l) →
                store h' !! l = store h !! l).
Proof.
  intros Hinj Hall.
  assert (NoDup (GetConnections h)) as Hnd.
  { unfold GetConnections. apply NoDup_fmap_2_strong; [|apply NoDup_map_to_list].
    intros [id1 l1] [id2 l2] H1%elem_of_map_to_list H2%elem_of_map_to_list.
    cbn. intros <-. f_equal. by eapply Hinj. }
  destruct (runAll_sends je now pick pickU ctxB m _ Hnd h) as (σ' & Hrun & Hin & Hout).
  { intros l [id Hid]%GetConnections_elem. by eapply Hall. }
  exists (withStore σ' h). split; [done|]. split; [done|]. split; [done|].
  split.
  - intros id l c Hid Hc. apply Hin; [|done]. apply GetConnections_elem. by exists id.
  - intros l Hl. apply Hout. intros [id Hid]%GetConnections_elem. by apply (Hl id).
Qed.

Lemma broadcast_delivery_witness :
  let h := handleRegister 2%positive
             (handleRegister 1%positive (Start None (New Fixtures.objects)).2) in
  let m := Some (mkMessage "test-msg-1" "test" (VString "Hello World") None) in
  ∃ h', HubGo.runAll (λ _, "{}") 0 PickComm PickComm None
          ((λ l, GoSendBroadcast l m) <$> GetConnections h) h = Some h'
        ∧ store h' !! 1%positive =
            Some (ConnMock (mkMock "test-conn-1" false false [m]))
        ∧ store h' !! 2%positive =
            Some (ConnMock (mkMock "conn-2" false false [m])).
Proof.
  intros h m.
  assert (∀ id l, connections h !! id = Some l →
            (id = "conn-2" ∧ l = 2%positive)
            ∨ (id = "test-conn-1" ∧ l = 1%positive)) as Hreg.
  { intros id l Hl.
    change (connections h)
      with (<["conn-2" := 2%positive]>
              (<["test-conn-1" := 1%positive]> (∅ : gmap string loc))) in Hl.
    apply lookup_insert_Some in Hl as [[<- <-]|[_ Hl]]; [by left|].
    apply lookup_insert_Some in Hl as [[<- <-]|[_ Hl]]; [by right|].
    by rewrite lookup_empty in Hl. }
  destruct (broadcast_delivery (λ _, "{}") 0 PickComm PickComm None m h)
    as (h' & Hrun & _ & _ & Hgot & _).
  - intros id id' l H1 H2.
    destruct (Hreg _ _ H1) as [[-> ->]|[-> ->]],
             (Hreg _ _ H2) as [[-> ?]|[-> ?]]; done.
  - intros id l Hl. destruct (Hreg _ _ Hl) as [[-> ->]|[-> ->]];
      eexists _, _; split; reflexivity.
  - exists h'. split; [exact Hrun|]. split.
    + destruct (Hgot "test-conn-1" 1%positive (Fixtures.mock "test-conn-1")
                  eq_refl eq_refl) as (c' & Hs & Hc').
      cbn in Hs. injection Hs as <-. exact Hc'.
    + destruct (Hgot "conn-2" 2%positive (Fixtures.mock "conn-2")
                  eq_refl eq_refl) as (c' & Hs & Hc').
      cbn in Hs. injection Hs as <-. exact Hc'.
Defined.

(** X24.  The watcher the hub starts for a registered connection can run
    only once the context of the connection is cancelled, which [Close]
    does for an SSEConnection and a WebSocketConnection (and not for the
    mock of the tests).  It then asks for the unregistration of the id of
    the connection and touches neither registry nor objects: on a running,
    live hub with room in the unregister channel the id is queued. *)
Theorem watcher_unregisters je now pick pickU ctxB l c h r h' :
  store h !! l = Some c →
  HubGo.run je now pick pickU ctxB (GoWatch l) h = Some (r, h') →
  Conn.Context c = true
  ∧ store h' = store h ∧ connections h' = connections h
  ∧ (running h = true → ctxDone h = false →
     length (unregister h) < unregisterCap →
     unregister h' = unregister h ++ [Conn.ID c])
  ∧ (∀ t s, Conn.Context (Conn.Close t (ConnSSE s)).2
            = (sse_ctxDone s || negb (sse_closed s)))
  ∧ (∀ t w, Conn.Context (Conn.Close t (ConnWS w)).2
            = (ws_ctxDone w || negb (ws_closed w)))
  ∧ (∀ t k, Conn.Context (Conn.Close t (ConnMock k)).2 = mock_ctxDone k).
Proof.
  intros Hl. cbn [HubGo.run]. rewrite Hl. cbn [mbind option_bind].
  destruct (Conn.Context c) eqn:Hctx; [|done].
  destruct (UnregisterConnection pickU (Conn.ID c) h) as [[r1 h1]|] eqn:Hun; [|done].
  cbn. intros [= <- <-].
  assert (store h1 = store h ∧ connections h1 = connections h
          ∧ (running h = true → ctxDone h = false →
             length (unregister h) < unregisterCap →
             unregister h1 = unregister h ++ [Conn.ID c])) as (Hs & Hc & Hq).
  { revert Hun. unfold UnregisterConnection, IsRunning.
    destruct (running h); cbn [negb]; [|by intros [= <- <-]].
    destruct pickU; try done.
    - destruct (Nat.ltb_spec (length (unregister h)) unregisterCap); [|done].
      by intros [= <- <-].
    - destruct (ctxDone h); [|done]. intros [= <- <-]. repeat split; done.
    - destruct (Nat.ltb_spec (length (unregister h)) unregisterCap); [done|].
      cbn. destruct (ctxDone h); [done|]. intros [= <- <-].
      repeat split; try done. intros _ _ ?. lia. }
  split; [done|]. split; [done|]. split; [done|]. split; [done|].
  split; [|split].
  - intros t s. cbn. unfold SSE.Close, SSE.Context.
    destruct (sse_closed s); cbn; [by rewrite orb_false_r|by rewrite orb_true_r].
  - intros t w. cbn. unfold WS.Close, WS.Context.
    destruct (ws_closed w); cbn; [by rewrite orb_false_r|by rewrite orb_true_r].
  - done.
Qed.

Lemma watcher_unregisters_witness :
  let s := mkSSE "a" (mkWriter ∅ "" 0 true None) false false [] 3 [] in
  let c := (Conn.Close 4 (ConnSSE s)).2 in
  let h := mkHub (<[1%positive := c]> ∅) (<["a" := 1%positive]> ∅)
                 true [] [] [] [] false [GoRun] in
  ∃ r h', HubGo.run (λ _, "{}") 0 PickComm PickComm None (GoWatch 1%positive) h
            = Some (r, h')
          ∧ unregister h' = ["a"].
Proof.
  intros s c h.
  destruct (HubGo.run (λ _, "{}") 0 PickComm PickComm None (GoWatch 1%positive) h)
    as [[r h']|] eqn:H; [|vm_compute in H; discriminate H].
  exists r, h'. split; [reflexivity|].
  destruct (watcher_unregisters _ _ _ _ _ 1%positive c h r h' eq_refl H)
    as (_ & _ & _ & Hq & _).
  apply Hq; try reflexivity. cbn. unfold unregisterCap. lia.
Defined.

End HubProps.
